(** * WritingTools: selection capture, cancellation and streamed replacement

    A shallow embedding of [Windows_and_Linux/WritingToolApp.py]: the
    methods [on_hotkey_pressed], [_show_popup], [get_selected_text],
    [clear_clipboard], [process_option_thread] and [replace_text] of the
    class [WritingToolApp], over an explicit model of the attributes of
    [self] they touch and of the desktop they act on (clipboard, foreground
    selection, synthesized keystrokes, emitted signals). *)

From Stdlib Require Import String Ascii List NArith ZArith Bool Lia.
Import ListNotations.
Local Open Scope N_scope.

(** ** Python strings

    A Python [str] is a sequence of Unicode code points; [len] counts code
    points.  String literals of the source are written as Rocq strings (the
    UTF-8 bytes of the file) and decoded to code points by [u]. *)

Definition char := N.
Definition str := list char.

Fixpoint utf8_decode (bs : list N) : str :=
  match bs with
  | [] => []
  | b0 :: r0 =>
    if b0 <? 128 then b0 :: utf8_decode r0
    else match r0 with
    | [] => []
    | b1 :: r1 =>
      if b0 <? 224 then ((b0 mod 32) * 64 + b1 mod 64) :: utf8_decode r1
      else match r1 with
      | [] => []
      | b2 :: r2 =>
        if b0 <? 240
        then ((b0 mod 16) * 4096 + (b1 mod 64) * 64 + b2 mod 64) :: utf8_decode r2
        else match r2 with
        | [] => []
        | b3 :: r3 =>
          ((b0 mod 8) * 262144 + (b1 mod 64) * 4096 + (b2 mod 64) * 64 + b3 mod 64)
            :: utf8_decode r3
        end
      end
    end
  end.

Definition u (s : string) : str :=
  utf8_decode (map N_of_ascii (list_ascii_of_string s)).

(** [==] on two [str] values. *)
Fixpoint str_eqb (a b : str) : bool :=
  match a, b with
  | [], [] => true
  | x :: a', y :: b' => (x =? y) && str_eqb a' b'
  | _, _ => false
  end.

(** Whitespace as [str.strip()] and [str.split()] see it
    ([Py_UNICODE_ISSPACE]): the ASCII table entries 0x09-0x0D, 0x1C-0x1F and
    0x20, and beyond ASCII the code points of bidirectional type WS, B or S
    or of category Zs. *)
Definition isspace (c : char) : bool :=
  ((9 <=? c) && (c <=? 13)) || ((28 <=? c) && (c <=? 32))
  || (c =? 133) || (c =? 160) || (c =? 5760)
  || ((8192 <=? c) && (c <=? 8202))
  || (c =? 8232) || (c =? 8233) || (c =? 8239) || (c =? 8287) || (c =? 12288).

Section Strip.
Variable p : char -> bool.

(** Drop the leading characters satisfying [p]. *)
Fixpoint lstrip_by (s : str) : str :=
  match s with
  | [] => []
  | c :: t => if p c then lstrip_by t else s
  end.

(** Drop the trailing characters satisfying [p]. *)
Fixpoint rstrip_by (s : str) : str :=
  match s with
  | [] => []
  | c :: t =>
    match rstrip_by t with
    | [] => if p c then [] else [c]
    | r => c :: r
    end
  end.
End Strip.

(** [s.strip()] *)
Definition strip (s : str) : str := rstrip_by isspace (lstrip_by isspace s).

(** [s.rstrip(chars)]: [chars] is a set of characters to remove. *)
Definition rstrip (chars : str) (s : str) : str :=
  rstrip_by (fun c => existsb (N.eqb c) chars) s.

(** [s.split()]: the maximal runs of non-whitespace characters; [w] is the
    run being read. *)
Fixpoint split_from (w : str) (s : str) : list str :=
  match s with
  | [] => match w with [] => [] | _ => [w] end
  | c :: t =>
    if isspace c
    then match w with [] => split_from [] t | _ => w :: split_from [] t end
    else split_from (w ++ [c]) t
  end.

Definition split (s : str) : list str := split_from [] s.

(** [sep.join(words)] *)
Fixpoint join (sep : str) (words : list str) : str :=
  match words with
  | [] => []
  | w :: rest =>
    match rest with
    | [] => w
    | _ => w ++ sep ++ join sep rest
    end
  end.

(** [s[:n]] *)
Definition slice_to (n : nat) (s : str) : str := firstn n s.

(** ** Values reaching [replace_text]

    The slot is connected to [Signal(str)] but is an ordinary method: the
    guard [new_text and isinstance(new_text, str)] is written for any
    value. *)
Inductive PyVal :=
| PyNone
| PyBool (b : bool)
| PyInt (z : Z)
| PyBytes (bs : list N)
| PyStr (s : str).

Definition truthy (v : PyVal) : bool :=
  match v with
  | PyNone => false
  | PyBool b => b
  | PyInt z => negb (Z.eqb z 0%Z)
  | PyBytes bs => match bs with [] => false | _ => true end
  | PyStr s => match s with [] => false | _ => true end
  end.

Definition isinstance_str (v : PyVal) : bool :=
  match v with PyStr _ => true | _ => false end.

(** ** The application and the desktop it acts on *)

Inductive Provider := Gemini15FlashProvider | OpenAICompatibleProvider.

(** What the application does to the outside, in order. *)
Inductive Event :=
| EvCancel (p : Provider)
    (** [current_provider.cancel()] *)
| EvGetResponse (p : Provider) (system_instruction : str) (prompt : option str)
    (** [current_provider.get_response(system_instruction, prompt)] *)
| EvMessage (title message : str)
    (** [show_message_signal.emit(title, message)] *)
| EvClipSet (s : str)
    (** [pyperclip.copy(s)] wrote [s] to the system clipboard *)
| EvCopied (s : str)
    (** Ctrl+C reached the foreground application, whose selection was [s] *)
| EvPasted (s : str)
    (** Ctrl+V reached the foreground application, which inserted [s] *)
| EvLogError (msg : str)
    (** [logging.error(msg)] *).

Record State := mkState {
  (* attributes of [self] *)
  output_queue : str;
  current_provider : option Provider;
  popup_window : option str;      (* the selected text held by the popup *)
  show_popup_queued : nat;        (* queued invocations of [_show_popup] *)
  (* the desktop *)
  clipboard : str;
  selection : str;                (* selection of the foreground application *)
  ctrl_down : bool;
  faults : list (option str);     (* per external call: [Some e] makes it raise [e] *)
  trace : list Event
}.

Definition set_output_queue (q : str) (st : State) : State :=
  mkState q (current_provider st) (popup_window st) (show_popup_queued st)
          (clipboard st) (selection st) (ctrl_down st) (faults st) (trace st).
Definition set_popup_window (w : option str) (st : State) : State :=
  mkState (output_queue st) (current_provider st) w (show_popup_queued st)
          (clipboard st) (selection st) (ctrl_down st) (faults st) (trace st).
Definition set_show_popup_queued (n : nat) (st : State) : State :=
  mkState (output_queue st) (current_provider st) (popup_window st) n
          (clipboard st) (selection st) (ctrl_down st) (faults st) (trace st).
Definition set_clipboard (c : str) (st : State) : State :=
  mkState (output_queue st) (current_provider st) (popup_window st) (show_popup_queued st)
          c (selection st) (ctrl_down st) (faults st) (trace st).
Definition set_ctrl_down (b : bool) (st : State) : State :=
  mkState (output_queue st) (current_provider st) (popup_window st) (show_popup_queued st)
          (clipboard st) (selection st) b (faults st) (trace st).
Definition set_faults (f : list (option str)) (st : State) : State :=
  mkState (output_queue st) (current_provider st) (popup_window st) (show_popup_queued st)
          (clipboard st) (selection st) (ctrl_down st) f (trace st).
Definition set_trace (t : list Event) (st : State) : State :=
  mkState (output_queue st) (current_provider st) (popup_window st) (show_popup_queued st)
          (clipboard st) (selection st) (ctrl_down st) (faults st) t.

(** ** A state monad with Python exceptions

    An exception carries its message ([str(e)]); the state reached when it
    was raised is kept, as in Python. *)
Inductive Outcome (A : Type) :=
| Done (a : A)
| Raised (e : str).
Arguments Done {A} a.
Arguments Raised {A} e.

Definition M (A : Type) := State -> Outcome A * State.

Definition ret {A} (a : A) : M A := fun st => (Done a, st).
Definition raise {A} (e : str) : M A := fun st => (Raised e, st).
Definition bind {A B} (m : M A) (k : A -> M B) : M B :=
  fun st => match m st with
            | (Done a, st') => k a st'
            | (Raised e, st') => (Raised e, st')
            end.
(** [try: body except Exception as e: handler(e)] *)
Definition try_except {A} (body : M A) (handler : str -> M A) : M A :=
  fun st => match body st with
            | (Done a, st') => (Done a, st')
            | (Raised e, st') => handler e st'
            end.

Declare Scope py_scope.
Delimit Scope py_scope with py.
Notation "x <- m ;; k" := (bind m (fun x => k))
  (at level 61, m at next level, right associativity) : py_scope.
Notation "m ;; k" := (bind m (fun _ => k))
  (at level 61, right associativity) : py_scope.
Local Open Scope py_scope.

Definition gets {A} (f : State -> A) : M A := fun st => (Done (f st), st).
Definition modify (f : State -> State) : M unit := fun st => (Done tt, f st).
Definition record (ev : Event) : M unit :=
  modify (fun st => set_trace (trace st ++ [ev]) st).

(** A call into the operating system or a library: it consumes the next
    entry of [faults] and raises when that entry says so, before having had
    any effect. *)
Definition external : M unit :=
  fun st => match faults st with
            | [] => (Done tt, st)
            | None :: fs => (Done tt, set_faults fs st)
            | Some e :: fs => (Raised e, set_faults fs st)
            end.

(** [pyperclip.paste()] and [pyperclip.copy(s)] *)
Definition pyperclip_paste : M str := external ;; gets clipboard.
Definition pyperclip_copy (s : str) : M unit :=
  external ;; modify (set_clipboard s) ;; record (EvClipSet s).

(** [pynput]'s keyboard controller.  The foreground application reacts to
    [c] and [v] pressed while Ctrl is down: copy puts a non-empty selection
    on the clipboard, paste inserts the clipboard's content. *)
Inductive Key := Key_ctrl | Key_char (c : char).

Definition Controller : M unit := external.

Definition press (k : Key) : M unit :=
  external ;;
  match k with
  | Key_ctrl => modify (set_ctrl_down true)
  | Key_char c =>
    down <- gets ctrl_down ;;
    if down && (c =? 99) then
      sel <- gets selection ;;
      match sel with
      | [] => ret tt
      | _ => modify (set_clipboard sel)
      end ;;
      record (EvCopied sel)
    else if down && (c =? 118) then
      clip <- gets clipboard ;;
      record (EvPasted clip)
    else ret tt
  end.

Definition release (k : Key) : M unit :=
  external ;;
  match k with
  | Key_ctrl => modify (set_ctrl_down false)
  | Key_char _ => ret tt
  end.

Definition logging_error (msg : str) : M unit := record (EvLogError msg).

Definition show_message_signal_emit (title message : str) : M unit :=
  record (EvMessage title message).

(** ** The methods of [WritingToolApp] *)

Definition error_message : str := u "ERROR_TEXT_INCOMPATIBLE_WITH_REQUEST".

(** [on_hotkey_pressed]: the queued call of [_show_popup] is run later by
    the event loop.
    Modelled from the spec: [cancel()] of the provider ([aiprovider] is not
    part of the sources) is fire-and-forget, it signals the backend and
    returns. *)
Definition cancel (p : Provider) : M unit := record (EvCancel p).

Definition on_hotkey_pressed : M unit :=
  p <- gets current_provider ;;
  match p with
  | Some pr => cancel pr ;; modify (set_output_queue [])
  | None => ret tt
  end ;;
  modify (fun st => set_show_popup_queued (S (show_popup_queued st)) st).

(** [clear_clipboard] *)
Definition clear_clipboard : M unit :=
  try_except (pyperclip_copy [])
             (fun e => logging_error (u "Error clearing clipboard: " ++ e)).

Definition press_ctrl_c : M unit :=
  press Key_ctrl ;; press (Key_char 99) ;; release (Key_char 99) ;; release Key_ctrl.

Definition press_ctrl_v : M unit :=
  press Key_ctrl ;; press (Key_char 118) ;; release (Key_char 118) ;; release Key_ctrl.

(** [get_selected_text]; [time.sleep(0.2)] has no effect on this state. *)
Definition get_selected_text : M str :=
  clipboard_backup <- pyperclip_paste ;;
  clear_clipboard ;;
  Controller ;;
  press_ctrl_c ;;
  selected_text <- pyperclip_paste ;;
  pyperclip_copy clipboard_backup ;;
  ret selected_text.

(** [_show_popup]: the capture is outside the [try]; of the window only its
    construction with the captured text is kept, each group of Qt calls
    being one external call (closing the old popup, constructing the new
    one, placing and showing it). *)
Definition _show_popup : M unit :=
  selected_text <- get_selected_text ;;
  try_except
    (w <- gets popup_window ;;
     match w with
     | Some _ => external ;; modify (set_popup_window None)
     | None => ret tt
     end ;;
     external ;;
     modify (set_popup_window (Some selected_text)) ;;
     external)
    (fun e => logging_error (u "Error showing popup window: " ++ e)).

Definition option_prompts : list (str * (str * str)) := [
  (u "Relecture",
   (u "Relis et corrige ceci :" ++ [10; 10],
    u "Tu es un relecteur précis. Corrige les erreurs, fond comme forme, grammaticales, orthographiques et typographiques également. Renvoie uniquement le texte corrigé, en préservant le style et la structure d'origine. En cas de texte incompréhensible, renvoie 'ERROR_TEXT_INCOMPATIBLE_WITH_REQUEST'. Pas de commentaires additionnels."));
  (u "Réécriture",
   (u "Réécris ceci :" ++ [10; 10],
    u "Tu es un assistant de rédaction. Améliore la formulation du texte fourni. Renvoie uniquement le texte réécrit, sans commentaires. En cas de texte incompréhensible, renvoie 'ERROR_TEXT_INCOMPATIBLE_WITH_REQUEST'."));
  (u "Amical",
   (u "Rends ceci plus amical :" ++ [10; 10],
    u "Tu es un assistant de rédaction. Réécris le texte pour le rendre plus chaleureux et accessible. Renvoie uniquement le texte modifié, sans commentaires. En cas de texte incompréhensible, renvoie 'ERROR_TEXT_INCOMPATIBLE_WITH_REQUEST'."));
  (u "Professionnel",
   (u "Rends ceci plus professionnel :" ++ [10; 10],
    u "Tu es un assistant de rédaction. Réécris le texte dans un style plus formel et professionnel. Renvoie uniquement le texte modifié, sans commentaires. En cas de texte incompréhensible, renvoie 'ERROR_TEXT_INCOMPATIBLE_WITH_REQUEST'."));
  (u "Concis",
   (u "Rends ceci plus concis :" ++ [10; 10],
    u "Tu es un assistant de rédaction. Réécris le texte de façon plus concise sans perdre l'information essentielle. Renvoie uniquement la version condensée, sans commentaires. En cas de texte incompréhensible, renvoie 'ERROR_TEXT_INCOMPATIBLE_WITH_REQUEST'."));
  (u "Résumé",
   (u "Résume ceci :" ++ [10; 10],
    u "Tu es un assistant de synthèse. Fournis un résumé clair et concis du texte. Renvoie uniquement le résumé, sans commentaires. En cas de texte incompréhensible, renvoie 'ERROR_TEXT_INCOMPATIBLE_WITH_REQUEST'."));
  (u "Points-Clés",
   (u "Extrais les points clés de ceci :" ++ [10; 10],
    u "Tu es un assistant d'analyse. Identifie et liste uniquement les points essentiels du texte, sans commentaires. En cas de texte incompréhensible, renvoie 'ERROR_TEXT_INCOMPATIBLE_WITH_REQUEST'."));
  (u "Tableau",
   (u "Convertis ceci en tableau :" ++ [10; 10],
    u "Tu es un assistant de conversion. Transforme le texte en tableau structuré. Renvoie uniquement le tableau formaté, sans commentaires. En cas de texte incompatible, renvoie 'ERROR_TEXT_INCOMPATIBLE_WITH_REQUEST'."));
  (u "Personnalisé",
   (u "Applique le changement suivant à ce texte :" ++ [10; 10],
    u "Tu es un assistant de rédaction polyvalent. Applique précisément la modification demandée au texte fourni. Renvoie uniquement le contenu modifié, sans commentaires. En cas de texte incompatible, renvoie 'ERROR_TEXT_INCOMPATIBLE_WITH_REQUEST'."))
].

(** [d.get(k, default)] on a dict literal, kept as an association list. *)
Fixpoint dict_get {V : Type} (d : list (str * V)) (k : str) (default : V) : V :=
  match d with
  | [] => default
  | (k', v) :: rest => if str_eqb k' k then v else dict_get rest k default
  end.

(** A value inside an f-string: [None] prints as its name. *)
Definition fmt (v : option str) : str :=
  match v with Some s => s | None => u "None" end.

(** Modelled from the spec: [get_response] of the provider ([aiprovider] is
    not part of the sources) starts the backend request, whose chunks arrive
    later through [output_ready_signal]; it may raise. *)
Definition get_response (system_instruction : str) (prompt : option str) : M unit :=
  p <- gets current_provider ;;
  match p with
  | None => raise (u "'NoneType' object has no attribute 'get_response'")
  | Some pr => record (EvGetResponse pr system_instruction prompt) ;; external
  end.

(** [process_option_thread]; [opt] is the source's [option], and
    [custom_change] defaults to [None]. *)
Definition process_option_thread
    (opt selected_text : str) (custom_change : option str) : M unit :=
  try_except
    (if str_eqb (strip selected_text) [] then
       if str_eqb opt (u "Custom") then
         let prompt := custom_change in
         let system_instruction := u "You are a helpful assistant to the user. The user cannot follow-up with you after your single response to them, so do not ask them questions." in
         modify (set_output_queue []) ;;
         get_response system_instruction prompt
       else
         show_message_signal_emit (u "Error") (u "Please select text to use this option.")
     else
       let '(prompt_prefix, system_instruction) := dict_get option_prompts opt ([], []) in
       let prompt :=
         if str_eqb opt (u "Custom")
         then prompt_prefix ++ u "Described change: " ++ fmt custom_change
              ++ [10; 10] ++ u "Text: " ++ selected_text
         else prompt_prefix ++ selected_text in
       modify (set_output_queue []) ;;
       get_response system_instruction (Some prompt))
    (fun e =>
       logging_error (u "An error occurred: " ++ e) ;;
       show_message_signal_emit (u "Error") (u "An error occurred: " ++ e)).

(** [replace_text] *)
Definition replace_text (new_text : PyVal) : M unit :=
  match new_text with
  | PyStr text =>
    if truthy new_text && isinstance_str new_text then
      modify (fun st => set_output_queue (output_queue st ++ text) st) ;;
      queue <- gets output_queue ;;
      let current_output := strip queue in
      if str_eqb current_output error_message then
        show_message_signal_emit
          (u "Error") (u "The text is incompatible with the requested change.")
      else if (length current_output <=? length error_message)%nat
              && (let clean_current := join [] (split current_output) in
                  let clean_error := join [] (split error_message) in
                  str_eqb clean_current (slice_to (length clean_current) clean_error))
      then ret tt
      else
        try_except
          (clipboard_backup <- pyperclip_paste ;;
           queue <- gets output_queue ;;
           let cleaned_text := rstrip [10] queue in
           pyperclip_copy cleaned_text ;;
           Controller ;;
           press_ctrl_v ;;
           pyperclip_copy clipboard_backup ;;
           modify (set_output_queue []))
          (fun e => logging_error (u "Error replacing text: " ++ e))
    else ret tt
  | _ => ret tt
  end.

(** ** The event loop of the main thread

    Signals emitted by the hotkey listener and by the provider's worker are
    delivered to their slots one at a time, in order of arrival; an
    exception leaving a slot ends that slot only. *)
Inductive QEvent :=
| HotkeyTriggered                 (* hotkey_triggered_signal *)
| ShowPopupCall                   (* a queued call of _show_popup *)
| OutputReady (chunk : PyVal)     (* output_ready_signal *).

Definition deliver (ev : QEvent) : M unit :=
  match ev with
  | HotkeyTriggered => on_hotkey_pressed
  | ShowPopupCall =>
    n <- gets show_popup_queued ;;
    match n with
    | O => ret tt
    | S n' => modify (set_show_popup_queued n') ;; _show_popup
    end
  | OutputReady chunk => replace_text chunk
  end.

Definition exec {A} (m : M A) (st : State) : State := snd (m st).

Fixpoint event_loop (evs : list QEvent) (st : State) : State :=
  match evs with
  | [] => st
  | ev :: rest => event_loop rest (exec (deliver ev) st)
  end.

(** The chunks of one response, delivered in order. *)
Definition feed (chunks : list str) : State -> State :=
  event_loop (map (fun c => OutputReady (PyStr c)) chunks).

(** What reached the document and what was shown to the user. *)
Fixpoint pasted (t : list Event) : list str :=
  match t with
  | [] => []
  | EvPasted s :: r => s :: pasted r
  | _ :: r => pasted r
  end.

Fixpoint messages (t : list Event) : list (str * str) :=
  match t with
  | [] => []
  | EvMessage a b :: r => (a, b) :: messages r
  | _ :: r => messages r
  end.

Fixpoint requests (t : list Event) : nat :=
  match t with
  | [] => O
  | EvGetResponse _ _ _ :: r => S (requests r)
  | _ :: r => requests r
  end.

(** ** The sanitizer's decision, in the words of the design

    [trimmed] is the accumulated output without leading and trailing
    whitespace, [collapse] removes whitespace everywhere, and the decision
    is one of suppress-and-report, hold, forward. *)
Definition collapse (s : str) : str := filter (fun c => negb (isspace c)) s.

Definition is_prefix (a b : str) : Prop := exists rest, b = a ++ rest.

Fixpoint prefixb (a b : str) : bool :=
  match a, b with
  | [], _ => true
  | x :: a', y :: b' => (x =? y) && prefixb a' b'
  | _ :: _, [] => false
  end.

Inductive Decision := Suppress_And_Report | Hold | Forward_All.

Definition decision (accumulated : str) : Decision :=
  let trimmed := strip accumulated in
  if str_eqb trimmed error_message then Suppress_And_Report
  else if (length trimmed <=? length error_message)%nat
          && prefixb (collapse trimmed) (collapse error_message)
  then Hold
  else Forward_All.

(** The notification of an incompatible text. *)
Definition incompatible : Event :=
  EvMessage (u "Error") (u "The text is incompatible with the requested change.").

(** The [try] block of [replace_text], on its own. *)
Definition forward_accumulated : M unit :=
  try_except
    (clipboard_backup <- pyperclip_paste ;;
     queue <- gets output_queue ;;
     let cleaned_text := rstrip [10] queue in
     pyperclip_copy cleaned_text ;;
     Controller ;;
     press_ctrl_v ;;
     pyperclip_copy clipboard_backup ;;
     modify (set_output_queue []))
    (fun e => logging_error (u "Error replacing text: " ++ e)).

(** How many of the chunks arrive, non-empty, when the accumulated output
    [acc] extended by them strips to the sentinel. *)
Fixpoint sentinel_hits (acc : str) (chunks : list str) : nat :=
  match chunks with
  | [] => O
  | c :: rest =>
    ((match c with
      | [] => 0
      | _ => if str_eqb (strip (acc ++ c)) error_message then 1 else 0
      end) + sentinel_hits (acc ++ c) rest)%nat
  end.

Definition whitespace_only (s : str) : bool := forallb isspace s.

(** ** Auxiliary notions for the properties *)

(** No whitespace anywhere. *)
Definition nospace (s : str) : bool := forallb (fun c => negb (isspace c)) s.

(** A run in which no external call raises. *)
Definition no_fault (f : option str) : bool :=
  match f with None => true | Some _ => false end.

Definition quiet (st : State) : Prop := forallb no_fault (faults st) = true.

(** The state a successful paste of the accumulated output leaves. *)
Definition after_paste (st : State) : State :=
  let cleaned_text := rstrip [10] (output_queue st) in
  mkState [] (current_provider st) (popup_window st) (show_popup_queued st)
          (clipboard st) (selection st) false (skipn 8 (faults st))
          (trace st ++ [EvClipSet cleaned_text; EvPasted cleaned_text;
                        EvClipSet (clipboard st)]).

(** The state a successful capture of the selection leaves. *)
Definition after_capture (st : State) : State :=
  mkState (output_queue st) (current_provider st) (popup_window st)
          (show_popup_queued st)
          (clipboard st) (selection st) false (skipn 9 (faults st))
          (trace st ++ [EvClipSet []; EvCopied (selection st);
                        EvClipSet (clipboard st)]).

(** A desktop at rest: nothing accumulated, a provider configured, some
    text selected in the foreground application and the user's own content
    on the clipboard. *)
Definition idle : State :=
  mkState [] (Some Gemini15FlashProvider) None 0
          (u "kept by the user") (u "selected words") false [] [].

(** A desktop on which the third external call raises: the keyboard
    controller cannot be created. *)
Definition no_keyboard : State :=
  mkState [] (Some Gemini15FlashProvider) None 0
          (u "kept by the user") (u "selected words") false
          [None; None; Some (u "no display")] [].


(** The sentinel in three chunks, with whitespace around it. *)
Definition sentinel_in_three : list str :=
  [u " ERROR_TEXT_"; u "INCOMPATIBLE_"; u "WITH_REQUEST "].

(** ** Further parts of [WritingToolApp]

    [start_hotkey_listener] rewrites the configured shortcut for pynput:
    [orig_shortcut.split('+')], every token longer than one character put
    between angle brackets, the tokens joined by ['+'] again. *)

(** [s.split(sep)] for a separator of one character: empty tokens are
    kept, and the empty string gives one empty token. *)
Fixpoint split_on (sep : char) (s : str) : list str :=
  match s with
  | [] => [[]]
  | c :: t =>
    if c =? sep then [] :: split_on sep t
    else match split_on sep t with
         | w :: ws => (c :: w) :: ws
         | [] => [[c]]
         end
  end.

(** [f'{t}' if len(t) <= 1 else f'<{t}>'] *)
Definition hotkey_token (t : str) : str :=
  if (length t <=? 1)%nat then t else u "<" ++ t ++ u ">".

(** The value of [shortcut] in [start_hotkey_listener]. *)
Definition shortcut (orig_shortcut : str) : str :=
  join (u "+") (map hotkey_token (split_on 43 orig_shortcut)).

(** The position [_show_popup] moves the popup to, from the cursor
    position, the size of the popup and the right and bottom edges of the
    screen under the cursor. *)
Definition popup_position
    (cursor_x cursor_y popup_width popup_height right bottom : Z) : Z * Z :=
  let x := cursor_x in
  let y := (cursor_y + 20)%Z in
  let x := if (x + popup_width >? right)%Z then (right - popup_width)%Z else x in
  let y := if (y + popup_height >? bottom)%Z
           then (cursor_y - popup_height - 10)%Z else y in
  (x, y).

(** Pasted texts put back together, the [i]-th followed by [ks_i] line
    feeds. *)
Fixpoint reassemble (texts : list str) (ks : list nat) : str :=
  match texts, ks with
  | t :: texts', k :: ks' => t ++ repeat 10 k ++ reassemble texts' ks'
  | _, _ => []
  end.

(** Events appended by a slot, none of which pastes a text that strips to
    a prefix of the sentinel. *)
Definition pastes_no_sentinel_prefix (evs : list Event) : Prop :=
  forall s, In (EvPasted s) evs -> ~ is_prefix (strip s) error_message.

(** A desktop on which the next external call raises: the backend is
    out of reach. *)
Definition backend_down : State := set_faults [Some (u "timeout")] idle.

(** ** The hotkey listener

    [start_hotkey_listener] and [exit_app] act on the pynput listener held
    in [self.hotkey_listener].  Listeners are told apart by the order of
    their creation; [running] holds those whose thread has been started
    and not stopped.  The calls into pynput ([stop], [HotKey.parse], the
    construction of the listener, [start]) and [self.quit()] are external
    calls, which may raise. *)
Record Listening := mkListening {
  hotkey_listener : option nat;
  registered_hotkey : option str;
  running : list nat;
  created : nat;
  parsed : list str;                     (* arguments given to [HotKey.parse] *)
  has_quit : bool;                       (* [self.quit()] was called *)
  listener_faults : list (option str);
  listener_errors : list str             (* [logging.error] *)
}.

Definition L (A : Type) := Listening -> Outcome A * Listening.

Definition lret {A} (a : A) : L A := fun s => (Done a, s).
Definition lbind {A B} (m : L A) (k : A -> L B) : L B :=
  fun s => match m s with
           | (Done a, s') => k a s'
           | (Raised e, s') => (Raised e, s')
           end.
Definition ltry (body : L unit) (handler : str -> L unit) : L unit :=
  fun s => match body s with
           | (Done a, s') => (Done a, s')
           | (Raised e, s') => handler e s'
           end.

Declare Scope listen_scope.
Delimit Scope listen_scope with listen.
Notation "x <- m ;; k" := (lbind m (fun x => k))
  (at level 61, m at next level, right associativity) : listen_scope.
Notation "m ;; k" := (lbind m (fun _ => k))
  (at level 61, right associativity) : listen_scope.

Definition lexternal : L unit :=
  fun s => match listener_faults s with
           | [] => (Done tt, s)
           | None :: fs =>
             (Done tt, mkListening (hotkey_listener s) (registered_hotkey s) (running s)
                         (created s) (parsed s) (has_quit s) fs (listener_errors s))
           | Some e :: fs =>
             (Raised e, mkListening (hotkey_listener s) (registered_hotkey s) (running s)
                          (created s) (parsed s) (has_quit s) fs (listener_errors s))
           end.

(** [self.hotkey_listener.stop()] on the listener [id]. *)
Definition listener_stop (id : nat) : L unit :=
  (lexternal ;;
   fun s => (Done tt,
             mkListening (hotkey_listener s) (registered_hotkey s)
               (filter (fun r => negb (Nat.eqb r id)) (running s))
               (created s) (parsed s) (has_quit s) (listener_faults s)
               (listener_errors s)))%listen.

(** [pykeyboard.HotKey.parse(shortcut)] *)
Definition hotkey_parse (shortcut : str) : L unit :=
  ((fun s => (Done tt,
              mkListening (hotkey_listener s) (registered_hotkey s) (running s)
                (created s) (parsed s ++ [shortcut]) (has_quit s)
                (listener_faults s) (listener_errors s))) ;;
   lexternal)%listen.

Definition set_registered_hotkey (orig_shortcut : str) : L unit :=
  fun s => (Done tt,
            mkListening (hotkey_listener s) (Some orig_shortcut) (running s)
              (created s) (parsed s) (has_quit s) (listener_faults s)
              (listener_errors s)).

(** [self.hotkey_listener = pykeyboard.Listener(...)] *)
Definition listener_create : L nat :=
  (lexternal ;;
   fun s => (Done (created s),
             mkListening (Some (created s)) (registered_hotkey s) (running s)
               (S (created s)) (parsed s) (has_quit s) (listener_faults s)
               (listener_errors s)))%listen.

(** [self.hotkey_listener.start()] *)
Definition listener_start (id : nat) : L unit :=
  (lexternal ;;
   fun s => (Done tt,
             mkListening (hotkey_listener s) (registered_hotkey s) (id :: running s)
               (created s) (parsed s) (has_quit s) (listener_faults s)
               (listener_errors s)))%listen.

Definition listener_log (msg : str) : L unit :=
  fun s => (Done tt,
            mkListening (hotkey_listener s) (registered_hotkey s) (running s)
              (created s) (parsed s) (has_quit s) (listener_faults s)
              (listener_errors s ++ [msg])).

(** [start_hotkey_listener]; [config_shortcut] is the entry ['shortcut']
    of the configuration, if any. *)
Definition start_hotkey_listener (config_shortcut : option str) : L unit :=
  let orig_shortcut :=
    match config_shortcut with Some v => v | None => u "ctrl+space" end in
  let shortcut := shortcut orig_shortcut in
  ltry
    (held <- (fun s => (Done (hotkey_listener s), s)) ;;
     match held with
     | Some id => listener_stop id
     | None => lret tt
     end ;;
     hotkey_parse shortcut ;;
     set_registered_hotkey orig_shortcut ;;
     id <- listener_create ;;
     listener_start id)%listen
    (fun e => listener_log (u "Failed to register hotkey: " ++ e)).

(** [register_hotkey] *)
Definition register_hotkey (config_shortcut : option str) : L unit :=
  start_hotkey_listener config_shortcut.

(** [exit_app] *)
Definition exit_app : L unit :=
  (held <- (fun s => (Done (hotkey_listener s), s)) ;;
   match held with
   | Some id => listener_stop id
   | None => lret tt
   end ;;
   lexternal ;;
   fun s => (Done tt,
             mkListening (hotkey_listener s) (registered_hotkey s) (running s)
               (created s) (parsed s) true (listener_faults s)
               (listener_errors s)))%listen.

(** Only the listener held by [self] can be running. *)
Definition one_listener (s : Listening) : Prop :=
  running s = [] \/ exists id, running s = [id] /\ hotkey_listener s = Some id.

(** The application before any hotkey has been registered. *)
Definition not_listening : Listening :=
  mkListening None None [] 0 [] false [] [].

(** The calls that reach the listener during the life of the application:
    [register_hotkey] (at start and whenever the shortcut is set) and
    [exit_app]. *)
Inductive ListenerCall :=
| CallRegisterHotkey (config_shortcut : option str)
| CallExitApp.

Fixpoint listener_calls (calls : list ListenerCall) (s : Listening) : Listening :=
  match calls with
  | [] => s
  | CallRegisterHotkey config_shortcut :: rest =>
    listener_calls rest (snd (register_hotkey config_shortcut s))
  | CallExitApp :: rest => listener_calls rest (snd (exit_app s))
  end.

(** No call into pynput or Qt raises. *)
Definition listener_quiet (s : Listening) : Prop :=
  forallb no_fault (listener_faults s) = true.

(** * Properties *)

(** ** Strings *)

Lemma str_eqb_eq (a b : str) : str_eqb a b = true <-> a = b.
Proof.
  revert b; induction a as [|x a IH]; intros [|y b]; simpl; split;
    try discriminate; try reflexivity.
  - intros H. apply andb_true_iff in H as [Hx Hr].
    apply N.eqb_eq in Hx. apply IH in Hr. now subst.
  - intros H. injection H as -> ->.
    apply andb_true_iff. split; [apply N.eqb_refl | now apply IH].
Qed.

Lemma str_eqb_refl (a : str) : str_eqb a a = true.
Proof. now apply str_eqb_eq. Qed.

Lemma str_eqb_neq (a b : str) : a <> b -> str_eqb a b = false.
Proof.
  intros H. destruct (str_eqb a b) eqn:E; [|reflexivity].
  now apply str_eqb_eq in E.
Qed.

Lemma join_empty_sep (l : list str) : join [] l = concat l.
Proof.
  induction l as [|w r IH]; [reflexivity|].
  destruct r as [|w' r].
  - simpl. now rewrite app_nil_r.
  - change (join [] (w :: w' :: r)) with (w ++ [] ++ join [] (w' :: r)).
    now rewrite IH.
Qed.

Lemma concat_split_from (w s : str) :
  concat (split_from w s) = w ++ collapse s.
Proof.
  revert w; induction s as [|c t IH]; intros w; simpl.
  - destruct w; simpl; now rewrite ?app_nil_r.
  - destruct (isspace c); simpl.
    + destruct w; simpl; now rewrite IH.
    + now rewrite IH, <- app_assoc.
Qed.

(** [''.join(s.split())] removes every whitespace character of [s]. *)
Lemma join_split_collapse (s : str) : join [] (split s) = collapse s.
Proof. unfold split. now rewrite join_empty_sep, concat_split_from. Qed.

Lemma prefixb_slice (a b : str) :
  str_eqb a (slice_to (length a) b) = prefixb a b.
Proof.
  revert b; induction a as [|x a IH]; intros [|y b]; simpl; try reflexivity.
  now rewrite IH.
Qed.

Lemma prefixb_iff (a b : str) : prefixb a b = true <-> is_prefix a b.
Proof.
  revert b; induction a as [|x a IH]; intros b; simpl.
  - split; [intros _; now exists b | reflexivity].
  - destruct b as [|y b].
    + split; [discriminate | intros [r H]; discriminate].
    + rewrite andb_true_iff, N.eqb_eq, IH. split.
      * intros [-> [r ->]]. now exists r.
      * intros [r H]. injection H as -> ->. split; [reflexivity | now exists r].
Qed.

Section StripFacts.
Variable p : char -> bool.

Lemma rstrip_by_all (w : str) : forallb p w = true -> rstrip_by p w = [].
Proof.
  induction w as [|c w IH]; simpl; [reflexivity|].
  intros H. apply andb_true_iff in H as [Hc Hw].
  now rewrite (IH Hw), Hc.
Qed.

Lemma rstrip_by_app_all (s w : str) :
  forallb p w = true -> rstrip_by p (s ++ w) = rstrip_by p s.
Proof.
  intros Hw. induction s as [|c s IH]; simpl.
  - now apply rstrip_by_all.
  - now rewrite IH.
Qed.

Lemma rstrip_by_decomp (s : str) :
  exists w, s = rstrip_by p s ++ w /\ forallb p w = true.
Proof.
  induction s as [|c t [w [Ht Hw]]]; simpl.
  - now exists [].
  - destruct (rstrip_by p t) as [|b r] eqn:E.
    + simpl in Ht. subst t. destruct (p c) eqn:Hc.
      * exists (c :: w). simpl. now rewrite Hc, Hw.
      * now exists w.
    + exists w. split; [|assumption]. simpl. now rewrite Ht at 1.
Qed.

Lemma rstrip_by_last (s x : str) (c : char) :
  rstrip_by p s = x ++ [c] -> p c = false.
Proof.
  revert x; induction s as [|a t IH]; intros x; simpl.
  - destruct x; discriminate.
  - destruct (rstrip_by p t) as [|b r].
    + destruct (p a) eqn:Ha.
      * destruct x; discriminate.
      * destruct x as [|x0 [|x1 x]]; try discriminate.
        intros H. now injection H as <-.
    + destruct x as [|x0 x]; [discriminate|].
      intros H. injection H as _ H. now apply (IH x).
Qed.

Lemma rstrip_by_clean (s : str) :
  forallb (fun c => negb (p c)) s = true -> rstrip_by p s = s.
Proof.
  induction s as [|c s IH]; simpl; [reflexivity|].
  intros H. apply andb_true_iff in H as [Hc Hs].
  rewrite (IH Hs). apply negb_true_iff in Hc. rewrite Hc.
  now destruct s.
Qed.

Lemma lstrip_by_all (w : str) : forallb p w = true -> lstrip_by p w = [].
Proof.
  induction w as [|c w IH]; simpl; [reflexivity|].
  intros H. apply andb_true_iff in H as [Hc Hw]. now rewrite Hc, IH.
Qed.

Lemma clean_app (a b : str) :
  forallb (fun c => negb (p c)) (a ++ b) = true ->
  forallb (fun c => negb (p c)) a = true.
Proof. rewrite forallb_app. intros H. now apply andb_true_iff in H. Qed.

(** Cutting a string short can only cut its right-stripped form short,
    as long as that form has nothing to strip inside. *)
Lemma rstrip_by_prefix (s b t : str) :
  rstrip_by p (s ++ b) = t ->
  forallb (fun c => negb (p c)) t = true ->
  is_prefix (rstrip_by p s) t.
Proof.
  intros Ht Hclean.
  destruct (rstrip_by_decomp (s ++ b)) as [w [Hsb Hw]].
  rewrite Ht in Hsb.
  apply app_eq_app in Hsb as [l [[Hs Hl] | [Hs Hl]]].
  - subst s. assert (Hpl : forallb p l = true).
    { subst w. rewrite forallb_app in Hw. now apply andb_true_iff in Hw. }
    rewrite (rstrip_by_app_all t l Hpl), (rstrip_by_clean t Hclean).
    exists []. now rewrite app_nil_r.
  - rewrite Hs in Hclean |- *.
    rewrite (rstrip_by_clean s (clean_app s l Hclean)). now exists l.
Qed.
End StripFacts.

Lemma collapse_nospace (s : str) : nospace s = true -> collapse s = s.
Proof.
  induction s as [|c s IH]; simpl; [reflexivity|].
  intros H. apply andb_true_iff in H as [Hc Hs].
  unfold collapse in *. simpl. now rewrite Hc, (IH Hs).
Qed.

Lemma strip_whitespace_only (w : str) : whitespace_only w = true -> strip w = [].
Proof. intros H. unfold strip. now rewrite (lstrip_by_all isspace w H). Qed.

(** The stripped form of a part read so far is a prefix of the stripped
    form of the whole, when the latter holds no whitespace. *)
Lemma strip_prefix (a b t : str) :
  strip (a ++ b) = t -> nospace t = true -> is_prefix (strip a) t.
Proof.
  unfold strip. induction a as [|x a IH]; intros Ht Hclean.
  - now exists t.
  - simpl in *. destruct (isspace x).
    + now apply IH.
    + now apply (rstrip_by_prefix isspace (x :: a) b t).
Qed.

(** Whitespace appended to the accumulated output does not show after
    stripping. *)
Lemma strip_app_whitespace (a w : str) :
  whitespace_only w = true -> strip (a ++ w) = strip a.
Proof.
  intros Hw. unfold strip. induction a as [|x a IH]; simpl.
  - now rewrite (lstrip_by_all isspace w Hw).
  - destruct (isspace x); [assumption|].
    now apply (rstrip_by_app_all isspace (x :: a) w).
Qed.

Lemma prefix_nospace (x t : str) :
  is_prefix x t -> nospace t = true -> nospace x = true.
Proof. intros [r ->]. apply clean_app. Qed.

Lemma prefix_length (x t : str) : is_prefix x t -> (length x <= length t)%nat.
Proof. intros [r ->]. rewrite length_app. lia. Qed.

(** ** The sentinel *)

Lemma error_message_nospace : nospace error_message = true.
Proof. vm_compute. reflexivity. Qed.

Lemma error_message_collapse : collapse error_message = error_message.
Proof. apply collapse_nospace, error_message_nospace. Qed.

Lemma error_message_not_blank : strip [] <> error_message.
Proof. vm_compute. discriminate. Qed.

Arguments u : simpl never.
Arguments error_message : simpl never.
Arguments strip : simpl never.
Arguments rstrip : simpl never.
Arguments collapse : simpl never.

(** ** [replace_text], case by case *)

Lemma set_output_queue_same (st : State) :
  set_output_queue (output_queue st) st = st.
Proof. now destruct st. Qed.

Lemma replace_text_empty (st : State) : replace_text (PyStr []) st = (Done tt, st).
Proof. reflexivity. Qed.

(** The method follows the decision taken on the accumulated output. *)
Lemma replace_text_decision (st : State) (c : str) :
  c <> [] ->
  replace_text (PyStr c) st =
  let st1 := set_output_queue (output_queue st ++ c) st in
  match decision (output_queue st ++ c) with
  | Suppress_And_Report => (Done tt, set_trace (trace st ++ [incompatible]) st1)
  | Hold => (Done tt, st1)
  | Forward_All => forward_accumulated st1
  end.
Proof.
  intros Hc. destruct c as [|c0 c]; [contradiction|].
  unfold replace_text, decision, forward_accumulated.
  cbn [truthy isinstance_str andb].
  unfold bind at 1. unfold modify at 1. unfold bind at 1. unfold gets at 1.
  cbn [output_queue set_output_queue].
  rewrite !join_split_collapse, prefixb_slice.
  destruct (str_eqb _ error_message); [reflexivity|].
  destruct (_ && _); reflexivity.
Qed.

(** ** Runs in which no external call raises *)

Ltac run_calls :=
  cbv [exec snd forward_accumulated get_selected_text clear_clipboard _show_popup
       try_except bind pyperclip_paste pyperclip_copy external gets modify record
       Controller press_ctrl_v press_ctrl_c press release ret logging_error
       output_queue current_provider popup_window show_popup_queued clipboard
       selection ctrl_down faults trace
       set_output_queue set_popup_window set_show_popup_queued set_clipboard
       set_ctrl_down set_faults set_trace
       andb N.eqb Pos.eqb skipn forallb no_fault].

Ltac finish_calls := run_calls; rewrite <- ?app_assoc; reflexivity.

Ltac next_call fs H :=
  destruct fs as [|[?|] fs];
  [ finish_calls
  | exfalso; revert H; run_calls; discriminate
  | revert H; run_calls; intros H ].

Lemma quiet_skipn (k : nat) (fs : list (option str)) :
  forallb no_fault fs = true -> forallb no_fault (skipn k fs) = true.
Proof.
  revert fs; induction k as [|k IH]; intros [|f fs] H;
    try assumption; try reflexivity.
  simpl in *. apply andb_true_iff in H as [_ H]. now apply IH.
Qed.

Lemma forward_accumulated_quiet (st : State) :
  quiet st -> forward_accumulated st = (Done tt, after_paste st).
Proof.
  unfold quiet. destruct st as [q cp pw n clip sel ctrl fs tr]. intros H.
  unfold after_paste.
  do 8 (next_call fs H).
  finish_calls.
Qed.

Lemma quiet_after_paste (st : State) : quiet st -> quiet (after_paste st).
Proof. unfold quiet, after_paste. cbn [faults]. apply quiet_skipn. Qed.

(** Whatever raises, the paste block writes to the clipboard only the
    cleaned text and the backup, and pastes only the cleaned text. *)
Ltac only_cleaned :=
  run_calls; rewrite <- ?app_assoc;
  eexists; split; [ first [ reflexivity | symmetry; apply app_nil_r ] | ];
  cbn [app In];
  let Hin := fresh "Hin" in
  intros ? Hin;
  repeat (destruct Hin as [Hin|Hin]; [ subst; eauto 6 | ]);
  contradiction.

Ltac any_call fs :=
  destruct fs as [|[?|] fs]; [ only_cleaned | only_cleaned | ].

Lemma forward_accumulated_events (st : State) :
  exists evs,
    trace (exec forward_accumulated st) = trace st ++ evs /\
    forall e, In e evs ->
      e = EvClipSet (rstrip [10] (output_queue st)) \/
      e = EvPasted (rstrip [10] (output_queue st)) \/
      e = EvClipSet (clipboard st) \/
      exists msg, e = EvLogError msg.
Proof.
  destruct st as [q cp pw n clip sel ctrl fs tr].
  do 8 (any_call fs).
  only_cleaned.
Qed.

Lemma get_selected_text_quiet (st : State) :
  quiet st -> get_selected_text st = (Done (selection st), after_capture st).
Proof.
  unfold quiet. destruct st as [q cp pw n clip sel ctrl fs tr]. intros H.
  unfold after_capture.
  destruct sel as [|s0 sel]; do 9 (next_call fs H); finish_calls.
Qed.

Lemma show_popup_quiet (st : State) :
  quiet st ->
  exists fs,
    _show_popup st =
    (Done tt, set_faults fs (set_popup_window (Some (selection st)) (after_capture st))).
Proof.
  unfold quiet. destruct st as [q cp pw n clip sel ctrl fs tr]. intros H.
  unfold after_capture.
  destruct pw as [w|].
  - exists (skipn 12 fs).
    destruct sel as [|s0 sel]; do 12 (next_call fs H); finish_calls.
  - exists (skipn 11 fs).
    destruct sel as [|s0 sel]; do 11 (next_call fs H); finish_calls.
Qed.

(** ** Reading the trace *)

Lemma pasted_app (a b : list Event) : pasted (a ++ b) = pasted a ++ pasted b.
Proof.
  induction a as [|e a IH]; [reflexivity|].
  destruct e; simpl; now rewrite IH.
Qed.

Lemma messages_app (a b : list Event) : messages (a ++ b) = messages a ++ messages b.
Proof.
  induction a as [|e a IH]; [reflexivity|].
  destruct e; simpl; now rewrite IH.
Qed.

Lemma requests_app (a b : list Event) : requests (a ++ b) = (requests a + requests b)%nat.
Proof.
  induction a as [|e a IH]; [reflexivity|].
  destruct e; simpl; now rewrite IH.
Qed.

Lemma pasted_incompatible (k : nat) : pasted (repeat incompatible k) = [].
Proof. induction k; [reflexivity | assumption]. Qed.

Lemma messages_incompatible (k : nat) :
  length (messages (repeat incompatible k)) = k.
Proof. induction k; [reflexivity | simpl; now f_equal]. Qed.

(** ** Streams that spell the sentinel *)

Lemma set_trace_same (q : str) (st : State) :
  set_trace (trace st ++ []) (set_output_queue q st) = set_output_queue q st.
Proof. destruct st. unfold set_trace, set_output_queue. cbn. now rewrite app_nil_r. Qed.

(** While the accumulated output can still be completed to the sentinel,
    a chunk is either held or, when it completes the sentinel, reported. *)
Lemma replace_text_towards_sentinel (st : State) (c rest : str) :
  strip (output_queue st ++ c ++ rest) = error_message ->
  exec (replace_text (PyStr c)) st =
  set_trace (trace st ++ repeat incompatible (sentinel_hits (output_queue st) [c]))
            (set_output_queue (output_queue st ++ c) st).
Proof.
  intros Hs. unfold exec. destruct c as [|c0 c].
  - rewrite replace_text_empty. cbn [snd sentinel_hits Nat.add repeat].
    now rewrite set_trace_same, app_nil_r, set_output_queue_same.
  - rewrite replace_text_decision by discriminate.
    rewrite app_assoc in Hs.
    pose proof (strip_prefix _ _ _ Hs error_message_nospace) as Hp.
    cbn [sentinel_hits]. rewrite Nat.add_0_r.
    unfold decision. cbv zeta.
    destruct (str_eqb (strip (output_queue st ++ c0 :: c)) error_message) eqn:E.
    + reflexivity.
    + rewrite error_message_collapse.
      rewrite (collapse_nospace _ (prefix_nospace _ _ Hp error_message_nospace)).
      apply prefixb_iff in Hp as Hb. rewrite Hb.
      apply prefix_length, Nat.leb_le in Hp. rewrite Hp.
      cbn [andb snd repeat]. now rewrite set_trace_same.
Qed.

Lemma feed_cons (c : str) (chunks : list str) (st : State) :
  feed (c :: chunks) st = feed chunks (exec (replace_text (PyStr c)) st).
Proof. reflexivity. Qed.

Lemma feed_towards_sentinel (chunks : list str) (st : State) :
  strip (output_queue st ++ concat chunks) = error_message ->
  feed chunks st =
  set_trace (trace st ++ repeat incompatible (sentinel_hits (output_queue st) chunks))
            (set_output_queue (output_queue st ++ concat chunks) st).
Proof.
  revert st; induction chunks as [|c chunks IH]; intros st Hs.
  - cbn [concat sentinel_hits repeat feed event_loop map].
    now rewrite set_trace_same, app_nil_r, set_output_queue_same.
  - rewrite feed_cons, (replace_text_towards_sentinel st c (concat chunks) Hs).
    rewrite IH.
    + destruct st. unfold set_trace, set_output_queue. cbn [output_queue trace
        current_provider popup_window show_popup_queued clipboard selection
        ctrl_down faults concat sentinel_hits].
      rewrite Nat.add_0_r, repeat_app, <- !app_assoc. reflexivity.
    + destruct st. cbn. cbn in Hs. now rewrite <- app_assoc.
Qed.

Lemma sentinel_hits_positive (chunks : list str) (acc : str) :
  strip acc <> error_message ->
  strip (acc ++ concat chunks) = error_message ->
  (1 <= sentinel_hits acc chunks)%nat.
Proof.
  revert acc; induction chunks as [|c chunks IH]; intros acc Hne Hs.
  - cbn in Hs. rewrite app_nil_r in Hs. contradiction.
  - cbn [sentinel_hits concat] in *. rewrite app_assoc in Hs.
    destruct c as [|c0 c].
    + rewrite app_nil_r in *. now apply IH.
    + destruct (str_eqb (strip (acc ++ c0 :: c)) error_message) eqn:E; [lia|].
      apply (IH (acc ++ c0 :: c)) in Hs; [lia|].
      intros Heq. apply str_eqb_eq in Heq. congruence.
Qed.

(** ** Helpers on states *)

Lemma quiet_set_output_queue (q : str) (st : State) :
  quiet st -> quiet (set_output_queue q st).
Proof. intros H. exact H. Qed.

(** A string whose characters are all line feeds. *)
Lemma only_newlines (w : str) :
  forallb (fun c => existsb (N.eqb c) [10]) w = true -> w = repeat 10 (length w).
Proof.
  induction w as [|c w IH]; simpl; [reflexivity|].
  intros H. apply andb_true_iff in H as [Hc Hw].
  rewrite orb_false_r in Hc. apply N.eqb_eq in Hc. subst c.
  now rewrite <- (IH Hw).
Qed.

(** [s.rstrip('\n')] removes trailing line feeds and nothing else. *)
Lemma rstrip_newlines (s : str) :
  (exists k, s = rstrip [10] s ++ repeat 10 k) /\
  (forall x, rstrip [10] s <> x ++ [10]).
Proof.
  unfold rstrip. split.
  - destruct (rstrip_by_decomp (fun c => existsb (N.eqb c) [10]) s) as [w [Hs Hw]].
    exists (length w). now rewrite <- (only_newlines w Hw).
  - intros x Hx.
    apply rstrip_by_last in Hx. discriminate Hx.
Qed.

(** A forward decision on a quiet desktop pastes and empties the queue. *)
Lemma replace_text_forward (st : State) (c : str) :
  quiet st -> c <> [] ->
  decision (output_queue st ++ c) = Forward_All ->
  exec (replace_text (PyStr c)) st =
  after_paste (set_output_queue (output_queue st ++ c) st).
Proof.
  intros Hq Hc Hd. unfold exec.
  rewrite (replace_text_decision st c Hc). cbv zeta. rewrite Hd.
  now rewrite forward_accumulated_quiet by now apply quiet_set_output_queue.
Qed.

Lemma pasted_of_paste (t : list Event) (x y : str) :
  pasted (t ++ [EvClipSet x; EvPasted x; EvClipSet y]) = pasted t ++ [x].
Proof. now rewrite pasted_app. Qed.

(** The decision taken on a first chunk [c], on a quiet desktop whose
    queue is empty. *)
Lemma replace_text_fresh (st : State) (c : str) :
  quiet st -> c <> [] -> output_queue st = [] ->
  let st' := exec (replace_text (PyStr c)) st in
  match decision c with
  | Forward_All =>
      pasted (trace st') = pasted (trace st) ++ [rstrip [10] c] /\
      messages (trace st') = messages (trace st) /\
      output_queue st' = []
  | Hold =>
      trace st' = trace st /\ output_queue st' = c
  | Suppress_And_Report =>
      trace st' = trace st ++ [incompatible] /\ output_queue st' = c
  end.
Proof.
  intros Hq Hc H0. cbv zeta.
  assert (Hacc : output_queue st ++ c = c) by now rewrite H0.
  destruct (decision c) eqn:Hd.
  - unfold exec. rewrite (replace_text_decision st c Hc), Hacc, Hd. now split.
  - unfold exec. rewrite (replace_text_decision st c Hc), Hacc, Hd. now split.
  - rewrite <- Hacc in Hd. rewrite (replace_text_forward st c Hq Hc Hd), Hacc.
    unfold after_paste. cbn [trace output_queue set_output_queue clipboard].
    rewrite pasted_of_paste, messages_app, app_nil_r. now repeat split.
Qed.


(** One chunk on a quiet desktop: it joins the accumulated output, or the
    accumulated output is pasted and emptied. *)
Lemma replace_text_quiet_step (st : State) (c : str) :
  quiet st ->
  let st1 := exec (replace_text (PyStr c)) st in
  quiet st1 /\
  ((pasted (trace st1) = pasted (trace st) /\
    output_queue st1 = output_queue st ++ c /\
    (c = [] \/ decision (output_queue st ++ c) <> Forward_All)) \/
   (pasted (trace st1) = pasted (trace st) ++ [rstrip [10] (output_queue st ++ c)] /\
    output_queue st1 = [])).
Proof.
  intros Hq. cbv zeta. destruct c as [|c0 c].
  - unfold exec. rewrite replace_text_empty. cbn [snd]. split; [exact Hq|].
    left. rewrite app_nil_r. repeat split. now left.
  - destruct (decision (output_queue st ++ c0 :: c)) eqn:Hd.
    + unfold exec. rewrite replace_text_decision, Hd by discriminate.
      cbn [snd]. split; [exact Hq|]. left.
      cbn [trace output_queue set_trace set_output_queue].
      rewrite pasted_app. cbn [pasted incompatible]. rewrite app_nil_r.
      repeat split. right. discriminate.
    + unfold exec. rewrite replace_text_decision, Hd by discriminate.
      cbn [snd]. split; [exact Hq|]. left. repeat split. right. discriminate.
    + rewrite (replace_text_forward st (c0 :: c) Hq) by (discriminate || exact Hd).
      split; [now apply quiet_after_paste, quiet_set_output_queue|]. right.
      unfold after_paste. cbn [trace output_queue set_output_queue clipboard].
      now rewrite pasted_of_paste.
Qed.

Lemma feed_quiet (chunks : list str) (st : State) :
  quiet st -> quiet (feed chunks st).
Proof.
  revert st; induction chunks as [|c chunks IH]; intros st Hq; [exact Hq|].
  rewrite feed_cons. apply IH. now apply replace_text_quiet_step.
Qed.

(** On a quiet desktop the chunks fed split in two: after the first part
    the accumulated output is empty, during the second nothing is pasted
    and the chunks pile up in the accumulated output; or nothing is pasted
    at all and the chunks pile up behind what was accumulated. *)
Lemma feed_split_at_last_paste (chunks : list str) (st : State) :
  quiet st ->
  (exists before since,
     chunks = before ++ since /\
     output_queue (feed before st) = [] /\
     pasted (trace (feed chunks st)) = pasted (trace (feed before st)) /\
     output_queue (feed chunks st) = concat since) \/
  (pasted (trace (feed chunks st)) = pasted (trace st) /\
   output_queue (feed chunks st) = output_queue st ++ concat chunks).
Proof.
  revert st; induction chunks as [|c chunks IH]; intros st Hq.
  - right. cbn. now rewrite app_nil_r.
  - destruct (replace_text_quiet_step st c Hq) as [Hq1 Hstep].
    rewrite feed_cons.
    destruct (IH _ Hq1) as [(before & since & Hc & Hb & Hp & Ho) | (Hp & Ho)].
    + left. exists (c :: before), since. rewrite feed_cons. subst chunks.
      now repeat split.
    + destruct Hstep as [(Hp1 & Ho1 & _) | (Hp1 & Ho1)].
      * right. rewrite Hp, Ho, Hp1, Ho1. cbn [concat]. now rewrite app_assoc.
      * left. exists [c], chunks. rewrite Ho, Ho1. now repeat split.
Qed.

(** From an empty accumulated output, the accumulated output is at any
    time the chunks received since it was last empty, none of them
    pasted. *)
Lemma feed_since_last_paste (chunks : list str) (st : State) :
  quiet st ->
  output_queue st = [] ->
  exists before since,
    chunks = before ++ since /\
    output_queue (feed before st) = [] /\
    pasted (trace (feed chunks st)) = pasted (trace (feed before st)) /\
    output_queue (feed chunks st) = concat since.
Proof.
  intros Hq H0.
  destruct (feed_split_at_last_paste chunks st Hq) as [H | (Hp & Ho)];
    [exact H|].
  exists [], chunks. rewrite Ho, H0. now repeat split.
Qed.


(** The decision taken on a chunk [c], on a quiet desktop, whatever has
    accumulated. *)
Lemma replace_text_decided (st : State) (c : str) :
  quiet st -> c <> [] ->
  let st' := exec (replace_text (PyStr c)) st in
  match decision (output_queue st ++ c) with
  | Forward_All =>
      pasted (trace st') = pasted (trace st) ++ [rstrip [10] (output_queue st ++ c)] /\
      messages (trace st') = messages (trace st) /\
      output_queue st' = []
  | Hold =>
      trace st' = trace st /\ output_queue st' = output_queue st ++ c
  | Suppress_And_Report =>
      trace st' = trace st ++ [incompatible] /\
      output_queue st' = output_queue st ++ c
  end.
Proof.
  intros Hq Hc. cbv zeta.
  destruct (decision (output_queue st ++ c)) eqn:Hd.
  - unfold exec. rewrite (replace_text_decision st c Hc), Hd. now split.
  - unfold exec. rewrite (replace_text_decision st c Hc), Hd. now split.
  - rewrite (replace_text_forward st c Hq Hc Hd).
    unfold after_paste. cbn [trace output_queue set_output_queue clipboard].
    rewrite pasted_of_paste, messages_app, app_nil_r. now repeat split.
Qed.

(** * The claims *)

(** ** C1: a stream that spells the sentinel *)

(** What a stream spelling the sentinel does, from an empty queue. *)
Lemma sentinel_stream_effects (st : State) (chunks : list str) :
  output_queue st = [] ->
  strip (concat chunks) = error_message ->
  feed chunks st =
  set_trace (trace st ++ repeat incompatible (sentinel_hits [] chunks))
            (set_output_queue (concat chunks) st).
Proof.
  intros H0 Hs.
  assert (Hs' : strip (output_queue st ++ concat chunks) = error_message)
    by now rewrite H0.
  now rewrite (feed_towards_sentinel chunks st Hs'), H0.
Qed.

(** C1, as the code has it: when the chunks of a response, concatenated and
    stripped, are the error sentinel, feeding them to [replace_text] from
    an empty queue pastes nothing and leaves the clipboard alone; the only
    effects are error notifications, at least one, and one for every
    non-empty chunk on whose arrival the stripped accumulated output is the
    sentinel. *)
Theorem sentinel_stream_never_pasted (st : State) (chunks : list str) :
  output_queue st = [] ->
  strip (concat chunks) = error_message ->
  let st' := feed chunks st in
  let k := sentinel_hits [] chunks in
  trace st' = trace st ++ repeat incompatible k /\
  (1 <= k)%nat /\
  pasted (trace st') = pasted (trace st) /\
  length (messages (trace st')) = (length (messages (trace st)) + k)%nat /\
  clipboard st' = clipboard st.
Proof.
  intros H0 Hs. cbv zeta.
  rewrite (sentinel_stream_effects st chunks H0 Hs).
  cbn [trace clipboard set_trace set_output_queue].
  repeat split.
  - apply sentinel_hits_positive; [apply error_message_not_blank | assumption].
  - now rewrite pasted_app, pasted_incompatible, app_nil_r.
  - now rewrite messages_app, length_app, messages_incompatible.
Qed.

Lemma sentinel_stream_never_pasted_witness :
  output_queue idle = [] /\
  strip (concat sentinel_in_three) = error_message /\
  pasted (trace (feed sentinel_in_three idle)) = pasted (trace idle).
Proof.
  split; [reflexivity|]. split; [vm_compute; reflexivity|].
  apply (sentinel_stream_never_pasted idle sentinel_in_three);
    vm_compute; reflexivity.
Defined.

(** C1 as stated fails: the sentinel followed by a chunk of trailing
    whitespace is reported twice. *)
Lemma sentinel_then_blank_reported_twice :
  let chunks := [error_message; u " "] in
  output_queue idle = [] /\
  strip (concat chunks) = error_message /\
  pasted (trace (feed chunks idle)) = [] /\
  length (messages (trace (feed chunks idle))) = 2%nat /\
  length (messages (trace (feed chunks idle))) <> 1%nat.
Proof. vm_compute. repeat split; discriminate. Qed.

(** ** C2: after the sentinel has been matched *)

(** C2, as the code has it: once the accumulated output of a response has
    matched the sentinel, later chunks that are empty or hold only
    whitespace cause no paste and leave the clipboard alone. *)
Theorem matched_sentinel_blank_chunks_never_pasted
    (st : State) (matched later : list str) :
  output_queue st = [] ->
  strip (concat matched) = error_message ->
  forallb whitespace_only later = true ->
  let st' := feed (matched ++ later) st in
  pasted (trace st') = pasted (trace st) /\ clipboard st' = clipboard st.
Proof.
  intros H0 Hm Hl. cbv zeta.
  assert (Hw : whitespace_only (concat later) = true).
  { clear Hm. induction later as [|w later IH]; [reflexivity|].
    simpl in Hl. apply andb_true_iff in Hl as [Hw Hl].
    unfold whitespace_only in *. simpl. rewrite forallb_app, Hw. now apply IH. }
  assert (Hs : strip (concat (matched ++ later)) = error_message)
    by now rewrite concat_app, strip_app_whitespace.
  rewrite (sentinel_stream_effects st (matched ++ later) H0 Hs).
  cbn [trace clipboard set_trace set_output_queue].
  now rewrite pasted_app, pasted_incompatible, app_nil_r.
Qed.

Lemma matched_sentinel_blank_chunks_never_pasted_witness :
  output_queue idle = [] /\
  strip (concat sentinel_in_three) = error_message /\
  forallb whitespace_only [u " "; []; [10; 9]] = true /\
  pasted (trace (feed (sentinel_in_three ++ [u " "; []; [10; 9]]) idle)) =
  pasted (trace idle).
Proof.
  split; [reflexivity|]. split; [vm_compute; reflexivity|].
  split; [vm_compute; reflexivity|].
  apply (matched_sentinel_blank_chunks_never_pasted
           idle sentinel_in_three [u " "; []; [10; 9]]);
    vm_compute; reflexivity.
Defined.

(** C2 as stated fails: a chunk with visible text arriving after the
    sentinel has been matched is pasted, and the sentinel with it. *)
Lemma text_after_sentinel_is_pasted :
  let matched := [error_message] in
  let later := [u "."] in
  output_queue idle = [] /\
  strip (concat matched) = error_message /\
  pasted (trace (feed (matched ++ later) idle)) = [error_message ++ u "."] /\
  pasted (trace (feed (matched ++ later) idle)) <> pasted (trace idle).
Proof. vm_compute. repeat split; discriminate. Qed.

(** ** C3: chunks of a cancelled request *)

(** C3, as the code has it: a trigger, when a provider exists, cancels it
    and discards the output accumulated so far; a chunk delivered after the
    trigger carries no mark of the request it comes from and is handled as
    the first chunk since the trigger, held, reported or pasted by the
    decision on its own content. *)
Theorem late_chunk_is_first_chunk_after_trigger
    (st : State) (pr : Provider) (late : str) :
  current_provider st = Some pr ->
  quiet st ->
  late <> [] ->
  let st1 := exec (deliver HotkeyTriggered) st in
  let st2 := exec (deliver (OutputReady (PyStr late))) st1 in
  output_queue st1 = [] /\
  trace st1 = trace st ++ [EvCancel pr] /\
  match decision late with
  | Forward_All =>
      pasted (trace st2) = pasted (trace st) ++ [rstrip [10] late] /\
      messages (trace st2) = messages (trace st) /\
      output_queue st2 = []
  | Hold =>
      trace st2 = trace st1 /\ output_queue st2 = late
  | Suppress_And_Report =>
      trace st2 = trace st1 ++ [incompatible] /\ output_queue st2 = late
  end.
Proof.
  intros Hp Hq Hl. cbv zeta.
  set (st1 := exec (deliver HotkeyTriggered) st).
  assert (H1 : st1 = set_show_popup_queued (S (show_popup_queued st))
                       (set_output_queue [] (set_trace (trace st ++ [EvCancel pr]) st))).
  { subst st1. destruct st. cbn in Hp. subst. reflexivity. }
  assert (Hq1 : quiet st1) by (rewrite H1; exact Hq).
  assert (H0 : output_queue st1 = []) by now rewrite H1.
  assert (Ht : trace st1 = trace st ++ [EvCancel pr]) by now rewrite H1.
  split; [assumption|]. split; [assumption|].
  pose proof (replace_text_fresh st1 late Hq1 Hl H0) as Hr. cbv zeta in Hr.
  cbn [deliver]. destruct (decision late); [assumption | assumption |].
  destruct Hr as (Hpa & Hm & Hout).
  rewrite Hpa, Hm, Ht, pasted_app, messages_app. cbn [pasted messages].
  now rewrite !app_nil_r.
Qed.

Lemma late_chunk_is_first_chunk_after_trigger_witness :
  current_provider idle = Some Gemini15FlashProvider /\
  quiet idle /\
  u "stale words" <> [] /\
  pasted (trace (exec (deliver (OutputReady (PyStr (u "stale words"))))
                      (exec (deliver HotkeyTriggered) idle)))
  = pasted (trace idle) ++ [rstrip [10] (u "stale words")].
Proof.
  assert (Hl : u "stale words" <> []) by discriminate.
  split; [reflexivity|]. split; [reflexivity|]. split; [exact Hl|].
  pose proof (late_chunk_is_first_chunk_after_trigger
                idle Gemini15FlashProvider (u "stale words")
                eq_refl eq_refl Hl) as H.
  cbv zeta in H. destruct H as (_ & _ & H).
  replace (decision (u "stale words")) with Forward_All in H
    by (vm_compute; reflexivity).
  exact (proj1 H).
Defined.

(** C3 as stated fails: a chunk of the cancelled request delivered after
    the trigger is pasted, and a short one is kept in the accumulated
    output of the request that follows. *)
Lemma stale_chunk_reaches_document :
  pasted (trace (event_loop
    [OutputReady (PyStr (u "ERROR_TEXT")); HotkeyTriggered;
     OutputReady (PyStr (u "stale words"))] idle)) = [u "stale words"] /\
  output_queue (event_loop
    [OutputReady (PyStr (u "ERROR_TEXT")); HotkeyTriggered;
     OutputReady (PyStr (u "ERR"))] idle) = u "ERR".
Proof. vm_compute. split; reflexivity. Qed.

(** ** C4: after a forward decision *)

(** C4, as the code has it: a paste that succeeds empties the accumulated
    output, and every chunk that follows, however many, is decided anew on
    what has accumulated since the accumulated output was last emptied by a
    paste: the chunks [since], none of them pasted, followed by the chunk
    itself.  It is pasted at once with them unless that text strips to the
    sentinel (reported) or to a collapsed prefix of it no longer than the
    sentinel (held). *)
Theorem after_forward_next_chunk_decided_anew
    (st : State) (first : str) (later : list str) (next : str) :
  quiet st ->
  first <> [] ->
  decision (output_queue st ++ first) = Forward_All ->
  next <> [] ->
  let st1 := exec (replace_text (PyStr first)) st in
  let st2 := feed later st1 in
  let st3 := exec (replace_text (PyStr next)) st2 in
  output_queue st1 = [] /\
  pasted (trace st1) = pasted (trace st) ++ [rstrip [10] (output_queue st ++ first)] /\
  exists before since,
    later = before ++ since /\
    output_queue (feed before st1) = [] /\
    pasted (trace st2) = pasted (trace (feed before st1)) /\
    output_queue st2 = concat since /\
    match decision (concat since ++ next) with
    | Forward_All =>
        pasted (trace st3) = pasted (trace st2) ++ [rstrip [10] (concat since ++ next)] /\
        messages (trace st3) = messages (trace st2) /\
        output_queue st3 = []
    | Hold =>
        trace st3 = trace st2 /\ output_queue st3 = concat since ++ next
    | Suppress_And_Report =>
        trace st3 = trace st2 ++ [incompatible] /\
        output_queue st3 = concat since ++ next
    end.
Proof.
  intros Hq Hf Hd Hn. cbv zeta.
  rewrite (replace_text_forward st first Hq Hf Hd).
  set (st1 := after_paste (set_output_queue (output_queue st ++ first) st)).
  assert (Hq1 : quiet st1)
    by now apply quiet_after_paste, quiet_set_output_queue.
  split; [reflexivity|]. split.
  - subst st1. unfold after_paste.
    cbn [trace output_queue set_output_queue clipboard].
    apply pasted_of_paste.
  - destruct (feed_since_last_paste later st1 Hq1 eq_refl)
      as (before & since & Hl & Hb & Hp & Ho).
    exists before, since. repeat split; try assumption.
    pose proof (replace_text_decided (feed later st1) next
                  (feed_quiet later st1 Hq1) Hn) as Hr.
    cbv zeta in Hr. rewrite Ho in Hr. exact Hr.
Qed.

Lemma after_forward_next_chunk_decided_anew_witness :
  quiet idle /\
  u "Hello" <> [] /\
  decision (output_queue idle ++ u "Hello") = Forward_All /\
  u "REQUEST" <> [] /\
  trace (exec (replace_text (PyStr (u "REQUEST")))
              (feed [u "ERROR_TEXT_INCOMPATIBLE_WITH_"]
                    (exec (replace_text (PyStr (u "Hello"))) idle)))
  = trace (feed [u "ERROR_TEXT_INCOMPATIBLE_WITH_"]
                (exec (replace_text (PyStr (u "Hello"))) idle))
    ++ [incompatible].
Proof.
  assert (Hf : u "Hello" <> []) by discriminate.
  assert (Hn : u "REQUEST" <> []) by discriminate.
  assert (Hd : decision (output_queue idle ++ u "Hello") = Forward_All)
    by (vm_compute; reflexivity).
  split; [reflexivity|]. split; [exact Hf|]. split; [exact Hd|].
  split; [exact Hn|].
  pose proof (after_forward_next_chunk_decided_anew
                idle (u "Hello") [u "ERROR_TEXT_INCOMPATIBLE_WITH_"] (u "REQUEST")
                eq_refl Hf Hd Hn) as H.
  cbv zeta in H.
  destruct H as (_ & _ & before & since & _ & _ & _ & Ho & H).
  rewrite <- Ho in H.
  replace (decision
             (output_queue (feed [u "ERROR_TEXT_INCOMPATIBLE_WITH_"]
                                 (exec (replace_text (PyStr (u "Hello"))) idle))
              ++ u "REQUEST"))
    with Suppress_And_Report in H by (vm_compute; reflexivity).
  exact (proj1 H).
Defined.

(** C4 as stated fails: after "Hello" has been forwarded, the chunk
    "ERROR" is held back, and a chunk of whitespace is too. *)
Lemma chunk_held_after_forwarding :
  decision (u "Hello") = Forward_All /\
  pasted (trace (feed [u "Hello"] idle)) = [u "Hello"] /\
  pasted (trace (feed [u "Hello"; u "ERROR"] idle)) = [u "Hello"] /\
  output_queue (feed [u "Hello"; u "ERROR"] idle) = u "ERROR" /\
  pasted (trace (feed [u "Hello"; u " "] idle)) = [u "Hello"].
Proof. vm_compute. repeat split; reflexivity. Qed.

(** ** C5: holding *)

(** C5: a chunk that leaves the stripped accumulated output no longer than
    the sentinel, different from it, and with a whitespace-collapsed form
    that is a prefix of the sentinel, is held: [replace_text] returns
    having only appended the chunk to the accumulated output; nothing is
    pasted, nothing is notified, the clipboard is untouched. *)
Theorem hold_keeps_chunk_and_does_nothing_else (st : State) (chunk : str) :
  (length (strip (output_queue st ++ chunk)) <= length error_message)%nat ->
  strip (output_queue st ++ chunk) <> error_message ->
  is_prefix (collapse (strip (output_queue st ++ chunk))) error_message ->
  replace_text (PyStr chunk) st =
    (Done tt, set_output_queue (output_queue st ++ chunk) st) /\
  trace (exec (replace_text (PyStr chunk)) st) = trace st /\
  clipboard (exec (replace_text (PyStr chunk)) st) = clipboard st /\
  output_queue (exec (replace_text (PyStr chunk)) st) = output_queue st ++ chunk.
Proof.
  intros Hlen Hne Hpre.
  assert (H : replace_text (PyStr chunk) st =
              (Done tt, set_output_queue (output_queue st ++ chunk) st)).
  { destruct chunk as [|c0 chunk].
    - now rewrite replace_text_empty, app_nil_r, set_output_queue_same.
    - rewrite replace_text_decision by discriminate. cbv zeta.
      unfold decision. cbv zeta.
      rewrite (str_eqb_neq _ _ Hne), error_message_collapse.
      apply Nat.leb_le in Hlen. apply prefixb_iff in Hpre.
      now rewrite Hlen, Hpre. }
  unfold exec. rewrite H. now repeat split.
Qed.

Lemma hold_keeps_chunk_and_does_nothing_else_witness :
  (length (strip (output_queue idle ++ u " ERROR_TEXT")) <= length error_message)%nat /\
  strip (output_queue idle ++ u " ERROR_TEXT") <> error_message /\
  is_prefix (collapse (strip (output_queue idle ++ u " ERROR_TEXT"))) error_message /\
  trace (exec (replace_text (PyStr (u " ERROR_TEXT"))) idle) = trace idle.
Proof.
  assert (H1 : (length (strip (output_queue idle ++ u " ERROR_TEXT"))
                <= length error_message)%nat)
    by (apply Nat.leb_le; vm_compute; reflexivity).
  assert (H2 : strip (output_queue idle ++ u " ERROR_TEXT") <> error_message)
    by (vm_compute; discriminate).
  assert (H3 : is_prefix (collapse (strip (output_queue idle ++ u " ERROR_TEXT")))
                         error_message)
    by (apply prefixb_iff; vm_compute; reflexivity).
  split; [exact H1|]. split; [exact H2|]. split; [exact H3|].
  exact (proj1 (proj2 (hold_keeps_chunk_and_does_nothing_else
                         idle (u " ERROR_TEXT") H1 H2 H3))).
Defined.

(** ** C6: what is pasted *)




(** ** C7: the clipboard *)

(** C7, as the code has it: when none of the clipboard reads, clipboard
    writes and keystroke simulations of a capture or of a call to
    [replace_text] raises, the clipboard holds at the end what it held at
    the start. *)
Theorem clipboard_restored_when_nothing_raises (st : State) :
  quiet st ->
  clipboard (exec get_selected_text st) = clipboard st /\
  forall new_text, clipboard (exec (replace_text new_text) st) = clipboard st.
Proof.
  intros Hq. split.
  - unfold exec. now rewrite (get_selected_text_quiet st Hq).
  - intros new_text. unfold exec.
    destruct new_text as [| b | z | bs | text]; try reflexivity.
    destruct text as [|c0 text]; [reflexivity|].
    rewrite replace_text_decision by discriminate. cbv zeta.
    destruct (decision _); try reflexivity.
    now rewrite forward_accumulated_quiet by now apply quiet_set_output_queue.
Qed.

Lemma clipboard_restored_when_nothing_raises_witness :
  quiet idle /\
  clipboard (exec get_selected_text idle) = clipboard idle /\
  clipboard (exec (replace_text (PyStr (u "Hello"))) idle) = clipboard idle.
Proof.
  split; [reflexivity|].
  destruct (clipboard_restored_when_nothing_raises idle eq_refl) as [Hc Hr].
  split; [exact Hc | exact (Hr (PyStr (u "Hello")))].
Defined.

(** C7 as stated fails: when the keystroke simulation raises, the capture
    leaves the clipboard empty and the paste leaves the text to be pasted
    on it. *)
Lemma clipboard_lost_when_keystroke_raises :
  clipboard no_keyboard = u "kept by the user" /\
  clipboard (exec get_selected_text no_keyboard) = [] /\
  clipboard (exec (replace_text (PyStr (u "Hello"))) no_keyboard) = u "Hello" /\
  clipboard (exec (replace_text (PyStr (u "Hello"))) no_keyboard)
    <> clipboard no_keyboard.
Proof. vm_compute. repeat split; discriminate. Qed.

(** ** C8: empty selection *)

(** C8: when the selected text is empty or only whitespace and the option
    is not the custom one, [process_option_thread] notifies the user that
    text must be selected and returns; the provider's [get_response] is not
    called and nothing else happens. *)
Theorem empty_selection_reported_without_request
    (st : State) (opt selected_text : str) (custom_change : option str) :
  strip selected_text = [] ->
  opt <> u "Custom" ->
  process_option_thread opt selected_text custom_change st =
    (Done tt,
     set_trace (trace st ++ [EvMessage (u "Error")
                                       (u "Please select text to use this option.")])
               st) /\
  requests (trace (exec (process_option_thread opt selected_text custom_change) st))
  = requests (trace st).
Proof.
  intros Hs Ho.
  assert (H : process_option_thread opt selected_text custom_change st =
    (Done tt,
     set_trace (trace st ++ [EvMessage (u "Error")
                                       (u "Please select text to use this option.")])
               st)).
  { unfold process_option_thread, try_except.
    rewrite Hs, (str_eqb_neq _ _ Ho). reflexivity. }
  split; [exact H|].
  unfold exec. rewrite H. cbn [snd trace set_trace].
  rewrite requests_app. cbn [requests]. lia.
Qed.

Lemma empty_selection_reported_without_request_witness :
  strip (u "  ") = [] /\
  u "Relecture" <> u "Custom" /\
  requests (trace (exec (process_option_thread (u "Relecture") (u "  ") None) idle))
  = requests (trace idle).
Proof.
  assert (Hs : strip (u "  ") = []) by (vm_compute; reflexivity).
  assert (Ho : u "Relecture" <> u "Custom") by (vm_compute; discriminate).
  split; [exact Hs|]. split; [exact Ho|].
  exact (proj2 (empty_selection_reported_without_request
                  idle (u "Relecture") (u "  ") None Hs Ho)).
Defined.

(** ** C9: the order of a trigger *)

(** C9: on a trigger with a provider configured, [on_hotkey_pressed] calls
    the provider's [cancel] and empties the accumulated output, touching
    neither clipboard nor keyboard, and queues [_show_popup]; only that
    queued call captures the selection, as it is then (the popup receives
    the foreground selection of this trigger whatever an earlier popup
    held), and no backend request is started along the way. *)
Theorem trigger_cancels_resets_then_captures (st : State) (pr : Provider) :
  current_provider st = Some pr ->
  let st1 := exec (deliver HotkeyTriggered) st in
  let st2 := exec (deliver ShowPopupCall) st1 in
  st1 = set_show_popup_queued (S (show_popup_queued st))
          (set_output_queue [] (set_trace (trace st ++ [EvCancel pr]) st)) /\
  (quiet st ->
   trace st2 = trace st ++ [EvCancel pr; EvClipSet []; EvCopied (selection st);
                            EvClipSet (clipboard st)] /\
   popup_window st2 = Some (selection st) /\
   output_queue st2 = [] /\
   clipboard st2 = clipboard st /\
   requests (trace st2) = requests (trace st)).
Proof.
  intros Hp. cbv zeta.
  destruct st as [q cp pw n clip sel ctrl fs tr]. cbn in Hp. subst cp.
  split; [reflexivity|]. intros Hq.
  set (st1 := mkState [] (Some pr) pw n clip sel ctrl fs (tr ++ [EvCancel pr])).
  assert (H2 : exec (deliver ShowPopupCall)
                 (exec (deliver HotkeyTriggered)
                    (mkState q (Some pr) pw n clip sel ctrl fs tr))
               = exec _show_popup st1) by reflexivity.
  rewrite H2. destruct (show_popup_quiet st1 Hq) as [fs' Hsp].
  unfold exec. rewrite Hsp.
  cbn [snd after_capture set_faults set_popup_window st1
       output_queue current_provider popup_window show_popup_queued clipboard
       selection ctrl_down faults trace].
  rewrite <- app_assoc, requests_app. cbn [requests app].
  repeat split. lia.
Qed.

Lemma trigger_cancels_resets_then_captures_witness :
  current_provider idle = Some Gemini15FlashProvider /\
  quiet idle /\
  popup_window (exec (deliver ShowPopupCall) (exec (deliver HotkeyTriggered) idle))
  = Some (selection idle).
Proof.
  split; [reflexivity|]. split; [reflexivity|].
  destruct (trigger_cancels_resets_then_captures idle Gemini15FlashProvider eq_refl)
    as [_ H].
  exact (proj1 (proj2 (H eq_refl))).
Defined.

(** ** C10: nothing to replace *)

(** C10: [replace_text] called with the empty string or with a value that
    is not a string changes nothing: the accumulated output, the clipboard,
    the document and the notifications are as before. *)
Theorem replace_text_ignores_empty_and_non_strings (st : State) (new_text : PyVal) :
  new_text = PyStr [] \/ isinstance_str new_text = false ->
  replace_text new_text st = (Done tt, st).
Proof.
  intros [-> | H]; [reflexivity|].
  destruct new_text; [reflexivity .. | discriminate H].
Qed.

Lemma replace_text_ignores_empty_and_non_strings_witness :
  (PyInt 7 = PyStr [] \/ isinstance_str (PyInt 7) = false) /\
  replace_text (PyInt 7) idle = (Done tt, idle) /\
  replace_text (PyStr []) idle = (Done tt, idle).
Proof.
  split; [right; reflexivity|]. split.
  - apply (replace_text_ignores_empty_and_non_strings idle (PyInt 7)).
    right; reflexivity.
  - apply (replace_text_ignores_empty_and_non_strings idle (PyStr [])).
    left; reflexivity.
Defined.

(** * Further properties *)

(** ** The shortcut given to pynput *)

Lemma split_on_not_nil (sep : char) (s : str) : split_on sep s <> [].
Proof.
  induction s as [|c t IH]; simpl; [discriminate|].
  destruct (c =? sep); [discriminate|].
  destruct (split_on sep t); [contradiction | discriminate].
Qed.

Lemma split_on_free (sep : char) (w : str) :
  ~ In sep w -> split_on sep w = [w].
Proof.
  induction w as [|c w IH]; intros H; simpl; [reflexivity|].
  destruct (N.eqb_spec c sep) as [->|Hc].
  - exfalso. apply H. now left.
  - rewrite IH; [reflexivity|]. intros Hin. apply H. now right.
Qed.

Lemma split_on_app_sep (sep : char) (w t : str) :
  ~ In sep w -> split_on sep (w ++ sep :: t) = w :: split_on sep t.
Proof.
  induction w as [|c w IH]; intros H; simpl.
  - now rewrite N.eqb_refl.
  - destruct (N.eqb_spec c sep) as [->|Hc].
    + exfalso. apply H. now left.
    + rewrite IH; [reflexivity|]. intros Hin. apply H. now right.
Qed.

Lemma split_on_tokens_free (sep : char) (s : str) :
  Forall (fun w => ~ In sep w) (split_on sep s).
Proof.
  induction s as [|c t IH]; simpl.
  - constructor; [intros [] | constructor].
  - destruct (N.eqb_spec c sep) as [->|Hc].
    + constructor; [intros [] | assumption].
    + destruct (split_on sep t) as [|w ws]; [repeat constructor|].
      * intros [H|[]]. now apply Hc.
      * inversion IH as [|? ? Hw Hws]; subst. constructor; [|assumption].
        intros [H|H]; [now apply Hc | now apply Hw].
Qed.

(** Joining the tokens with the separator gives the string back. *)
Lemma join_split_on (sep : char) (s : str) : join [sep] (split_on sep s) = s.
Proof.
  induction s as [|c t IH]; [reflexivity|]. simpl.
  pose proof (split_on_not_nil sep t) as Hn.
  destruct (split_on sep t) as [|w ws]; [contradiction|].
  destruct (c =? sep) eqn:E.
  - apply N.eqb_eq in E. subst c.
    change (join [sep] ([] :: w :: ws)) with ([] ++ [sep] ++ join [sep] (w :: ws)).
    now rewrite IH.
  - rewrite <- IH. now destruct ws.
Qed.

(** Splitting what was joined gives the tokens back, when no token holds
    the separator. *)
Lemma split_on_join (sep : char) (words : list str) :
  words <> [] ->
  Forall (fun w => ~ In sep w) words ->
  split_on sep (join [sep] words) = words.
Proof.
  induction words as [|w ws IH]; intros Hn Hf; [contradiction|].
  inversion Hf as [|? ? Hw Hws]; subst.
  destruct ws as [|w2 ws].
  - cbn [join]. now apply split_on_free.
  - change (join [sep] (w :: w2 :: ws)) with (w ++ sep :: join [sep] (w2 :: ws)).
    rewrite (split_on_app_sep sep w _ Hw), IH; [reflexivity | discriminate | assumption].
Qed.

Lemma hotkey_token_free (w : str) : ~ In 43 w -> ~ In 43 (hotkey_token w).
Proof.
  unfold hotkey_token. intros H. destruct (length w <=? 1)%nat; [assumption|].
  change (u "<") with [60]. change (u ">") with [62].
  intros Hin. cbn [app] in Hin. destruct Hin as [Hin|Hin]; [discriminate|].
  apply in_app_or in Hin as [Hin|[Hin|[]]]; [now apply H | discriminate].
Qed.

(** X1: the shortcut handed to pynput has the tokens of the configured
    shortcut, in order, each one longer than a character between angle
    brackets and the others (empty ones too) as they are: splitting it on
    [+] gives exactly those tokens. *)
Theorem shortcut_keeps_tokens (orig_shortcut : str) :
  split_on 43 (shortcut orig_shortcut)
  = map hotkey_token (split_on 43 orig_shortcut).
Proof.
  unfold shortcut. change (u "+") with [43]. apply split_on_join.
  - pose proof (split_on_not_nil 43 orig_shortcut) as Hn.
    destruct (split_on 43 orig_shortcut); [contradiction | discriminate].
  - pose proof (split_on_tokens_free 43 orig_shortcut) as Hf.
    induction Hf as [|w ws Hw Hws IH]; constructor; [|assumption].
    now apply hotkey_token_free.
Qed.

(** X2: a shortcut whose tokens are all single characters (or empty) is
    handed to pynput unchanged. *)
Theorem shortcut_of_single_characters (orig_shortcut : str) :
  Forall (fun t => (length t <= 1)%nat) (split_on 43 orig_shortcut) ->
  shortcut orig_shortcut = orig_shortcut.
Proof.
  intros H. unfold shortcut. change (u "+") with [43].
  rewrite <- (join_split_on 43 orig_shortcut) at 2. f_equal.
  induction H as [|t ts Ht Hts IH]; [reflexivity|].
  cbn [map]. rewrite IH. unfold hotkey_token.
  apply Nat.leb_le in Ht. now rewrite Ht.
Qed.

Lemma shortcut_of_single_characters_witness :
  Forall (fun t => (length t <= 1)%nat) (split_on 43 (u "a+b")) /\
  shortcut (u "a+b") = u "a+b".
Proof.
  assert (H : Forall (fun t => (length t <= 1)%nat) (split_on 43 (u "a+b"))).
  { change (split_on 43 (u "a+b")) with [[97]; [98]]. repeat constructor. }
  split; [exact H|].
  exact (shortcut_of_single_characters (u "a+b") H).
Defined.

Lemma hotkey_tokens_length (sep : str) (tokens : list str) :
  tokens <> [] ->
  length (join sep (map hotkey_token tokens))
  = (length (join sep tokens)
     + 2 * length (filter (fun t => negb (length t <=? 1)) tokens))%nat.
Proof.
  induction tokens as [|t ts IH]; intros Hn; [contradiction|].
  assert (Ht : length (hotkey_token t)
               = (length t + 2 * (if (length t <=? 1)%nat then 0 else 1))%nat).
  { unfold hotkey_token. destruct (length t <=? 1)%nat; [lia|].
    change (u "<") with [60]. change (u ">") with [62].
    cbn [app length]. rewrite length_app. cbn [length]. lia. }
  destruct ts as [|t2 ts].
  - cbn [map join filter]. rewrite Ht.
    destruct (length t <=? 1)%nat; cbn [negb length]; lia.
  - change (join sep (map hotkey_token (t :: t2 :: ts)))
      with (hotkey_token t ++ sep ++ join sep (map hotkey_token (t2 :: ts))).
    change (join sep (t :: t2 :: ts)) with (t ++ sep ++ join sep (t2 :: ts)).
    rewrite !length_app, IH by discriminate. rewrite Ht.
    cbn [filter]. destruct (length t <=? 1)%nat; cbn [negb length]; lia.
Qed.

(** X3: the shortcut handed to pynput is longer than the configured one by
    two characters for each token longer than a character. *)
Theorem shortcut_length (orig_shortcut : str) :
  length (shortcut orig_shortcut)
  = (length orig_shortcut
     + 2 * length (filter (fun t => negb (length t <=? 1))
                          (split_on 43%N orig_shortcut)))%nat.
Proof.
  unfold shortcut.
  rewrite <- (join_split_on 43 orig_shortcut) at 2.
  apply (hotkey_tokens_length [43]), split_on_not_nil.
Qed.

(** The example of the source's comment. *)
Example shortcut_ctrl_alt_h : shortcut (u "ctrl+alt+h") = u "<ctrl>+<alt>+h".
Proof. vm_compute. reflexivity. Qed.

(** ** Placing the popup *)

(** X4: the popup never reaches past the right edge of the screen, and it
    never covers the cursor's row: it starts 20 pixels below the cursor
    and then ends at or above the bottom edge, or it ends 10 pixels above
    the cursor. *)
Theorem popup_position_clear_of_cursor
    (cursor_x cursor_y popup_width popup_height right bottom : Z) :
  let '(x, y) := popup_position cursor_x cursor_y popup_width popup_height
                                right bottom in
  (x + popup_width <= right)%Z /\
  (x <= cursor_x)%Z /\
  ((y = cursor_y + 20 /\ y + popup_height <= bottom)%Z \/
   (y + popup_height = cursor_y - 10 /\ bottom < cursor_y + 20 + popup_height)%Z).
Proof.
  unfold popup_position.
  destruct (Z.gtb_spec (cursor_x + popup_width) right);
    destruct (Z.gtb_spec (cursor_y + 20 + popup_height) bottom); lia.
Qed.

(** X5: when the cursor is not below the bottom edge, the popup never
    reaches past the bottom edge either. *)
Theorem popup_position_above_bottom
    (cursor_x cursor_y popup_width popup_height right bottom : Z) :
  (cursor_y <= bottom)%Z ->
  (snd (popup_position cursor_x cursor_y popup_width popup_height right bottom)
   + popup_height <= bottom)%Z.
Proof.
  intros H. unfold popup_position. cbn [snd].
  destruct (Z.gtb_spec (cursor_y + 20 + popup_height) bottom); lia.
Qed.

Lemma popup_position_above_bottom_witness :
  (1070 <= 1079)%Z /\
  (snd (popup_position 1900 1070 300 200 1919 1079) + 200 <= 1079)%Z.
Proof.
  assert (H : (1070 <= 1079)%Z) by lia.
  split; [exact H|].
  exact (popup_position_above_bottom 1900 1070 300 200 1919 1079 H).
Defined.

(** ** What [replace_text] pastes, and what it keeps *)

Lemma decision_forward_not_prefix (acc : str) :
  decision acc = Forward_All -> ~ is_prefix (strip acc) error_message.
Proof.
  unfold decision. cbv zeta. intros Hd Hp.
  destruct (str_eqb (strip acc) error_message); [discriminate|].
  rewrite error_message_collapse in Hd.
  rewrite (collapse_nospace _ (prefix_nospace _ _ Hp error_message_nospace)) in Hd.
  apply prefixb_iff in Hp as Hb. rewrite Hb in Hd.
  apply prefix_length, Nat.leb_le in Hp. rewrite Hp in Hd. discriminate.
Qed.

Lemma decision_not_forward_short (acc : str) :
  decision acc <> Forward_All ->
  (length (strip acc) <= length error_message)%nat.
Proof.
  unfold decision. cbv zeta. intros Hd.
  destruct (str_eqb (strip acc) error_message) eqn:E.
  - apply str_eqb_eq in E. rewrite E. lia.
  - destruct (length (strip acc) <=? length error_message)%nat eqn:L.
    + now apply Nat.leb_le.
    + cbn [andb] in Hd. contradiction.
Qed.

Lemma whitespace_only_newlines (k : nat) : whitespace_only (repeat 10 k) = true.
Proof. induction k; [reflexivity | assumption]. Qed.

Lemma strip_rstrip_newlines (acc : str) : strip (rstrip [10] acc) = strip acc.
Proof.
  destruct (proj1 (rstrip_newlines acc)) as [k Hk].
  transitivity (strip (rstrip [10] acc ++ repeat 10 k)).
  - symmetry. apply strip_app_whitespace, whitespace_only_newlines.
  - now rewrite <- Hk.
Qed.

Lemma replace_text_pastes_no_sentinel_prefix (new_text : PyVal) (st : State) :
  exists evs,
    trace (exec (replace_text new_text) st) = trace st ++ evs /\
    pastes_no_sentinel_prefix evs.
Proof.
  assert (Hnone : exists evs, trace st = trace st ++ evs /\
                              pastes_no_sentinel_prefix evs).
  { exists []. split; [now rewrite app_nil_r | intros s []]. }
  destruct new_text as [| b | z | bs | text]; try exact Hnone.
  destruct text as [|c0 text]; [exact Hnone|].
  unfold exec. rewrite replace_text_decision by discriminate. cbv zeta.
  destruct (decision (output_queue st ++ c0 :: text)) eqn:Hd.
  - exists [incompatible]. split; [reflexivity|].
    intros s [H|[]]. discriminate H.
  - exact Hnone.
  - destruct (forward_accumulated_events
                (set_output_queue (output_queue st ++ c0 :: text) st))
      as [evs [Ht He]].
    exists evs. split; [exact Ht|].
    intros s Hin. destruct (He _ Hin) as [H|[H|[H|[msg H]]]]; try discriminate H.
    injection H as ->. cbn [output_queue set_output_queue].
    rewrite strip_rstrip_newlines. now apply decision_forward_not_prefix.
Qed.

(** Whatever raises, the capture and the popup paste nothing. *)
Ltac nothing_pasted :=
  run_calls; rewrite <- ?app_assoc;
  eexists; split; [ first [ reflexivity | symmetry; apply app_nil_r ] | ];
  cbn [app In];
  let Hin := fresh "Hin" in
  intros ? Hin;
  repeat (destruct Hin as [Hin|Hin]; [ discriminate Hin | ]);
  contradiction.

Ltac any_capture_call fs :=
  first [ nothing_pasted | destruct fs as [|[?|] fs]; any_capture_call fs ].

Lemma show_popup_pastes_nothing (st : State) :
  exists evs,
    trace (exec _show_popup st) = trace st ++ evs /\
    pastes_no_sentinel_prefix evs.
Proof.
  unfold pastes_no_sentinel_prefix.
  destruct st as [q cp pw n clip sel ctrl fs tr].
  destruct pw as [w|]; destruct sel as [|s0 sel]; any_capture_call fs.
Qed.

Lemma deliver_pastes_no_sentinel_prefix (ev : QEvent) (st : State) :
  exists evs,
    trace (exec (deliver ev) st) = trace st ++ evs /\
    pastes_no_sentinel_prefix evs.
Proof.
  destruct ev as [| | chunk].
  - destruct st as [q [pr|] pw n clip sel ctrl fs tr].
    + exists [EvCancel pr]. split; [reflexivity|]. intros s [H|[]]. discriminate H.
    + exists []. split; [symmetry; apply app_nil_r | intros s []].
  - destruct (show_popup_queued st) as [|n'] eqn:En.
    + exists []. split; [|intros s []].
      unfold exec, deliver, bind, gets. rewrite En. cbn. now rewrite app_nil_r.
    + destruct (show_popup_pastes_nothing (set_show_popup_queued n' st))
        as [evs [Ht He]].
      exists evs. split; [|exact He].
      unfold exec, deliver, bind, gets. rewrite En. exact Ht.
  - apply replace_text_pastes_no_sentinel_prefix.
Qed.

(** X6: whatever the order of triggers, popups and chunks, of whatever
    content, and whichever external call raises, no text pasted into the
    document is, once stripped, the sentinel, the beginning of the sentinel
    or empty. *)
Theorem event_loop_never_pastes_sentinel_prefix (evs : list QEvent) (st : State) :
  exists new,
    trace (event_loop evs st) = trace st ++ new /\
    forall s, In s (pasted new) -> ~ is_prefix (strip s) error_message.
Proof.
  assert (Hin : forall l s, In s (pasted l) -> In (EvPasted s) l).
  { induction l as [|e l IH]; intros s H; [contradiction|].
    destruct e; cbn [pasted] in H; try (right; now apply IH).
    destruct H as [->|H]; [now left | right; now apply IH]. }
  revert st; induction evs as [|ev evs IH]; intros st.
  - exists []. split; [symmetry; apply app_nil_r | intros s []].
  - destruct (deliver_pastes_no_sentinel_prefix ev st) as [e1 [H1 P1]].
    destruct (IH (exec (deliver ev) st)) as [e2 [H2 P2]].
    exists (e1 ++ e2). split.
    + cbn [event_loop]. now rewrite H2, H1, app_assoc.
    + intros s Hs. rewrite pasted_app in Hs.
      apply in_app_or in Hs as [Hs|Hs]; [apply P1; now apply Hin | now apply P2].
Qed.

(** X7: on a desktop where no external call raises, the chunks of a
    response reach the document in order, without repetition and without
    loss except for the line feeds that end a pasted text: what was in the
    queue followed by all the chunks is the pasted texts, each followed by
    some line feeds, followed by what is still in the queue. *)
Theorem feed_loses_only_trailing_newlines (chunks : list str) (st : State) :
  quiet st ->
  exists new ks,
    pasted (trace (feed chunks st)) = pasted (trace st) ++ new /\
    length ks = length new /\
    output_queue st ++ concat chunks
    = reassemble new ks ++ output_queue (feed chunks st).
Proof.
  revert st; induction chunks as [|c chunks IH]; intros st Hq.
  - exists [], []. cbn. now rewrite !app_nil_r.
  - rewrite feed_cons.
    destruct (replace_text_quiet_step st c Hq) as [Hq1 Hstep].
    destruct (IH _ Hq1) as (new & ks & Hp & Hl & Hc).
    destruct Hstep as [(Hp1 & Ho1 & _) | (Hp1 & Ho1)].
    + exists new, ks. rewrite Hp, Hp1. repeat split; [assumption|].
      rewrite <- Hc, Ho1. cbn [concat]. now rewrite app_assoc.
    + destruct (proj1 (rstrip_newlines (output_queue st ++ c))) as [k Hk].
      exists (rstrip [10] (output_queue st ++ c) :: new), (k :: ks).
      rewrite Hp, Hp1, <- app_assoc. repeat split.
      * cbn [length]. now rewrite Hl.
      * cbn [concat reassemble]. rewrite Ho1 in Hc. cbn [app] in Hc.
        rewrite app_assoc, Hk at 1. rewrite Hc, <- !app_assoc. reflexivity.
Qed.

Lemma feed_loses_only_trailing_newlines_witness :
  quiet idle /\
  exists new ks,
    pasted (trace (feed [u "Dear all," ++ [10]; u "thanks."; u " ERR"] idle))
    = pasted (trace idle) ++ new /\
    length ks = length new /\
    output_queue idle ++ concat [u "Dear all," ++ [10]; u "thanks."; u " ERR"]
    = reassemble new ks
      ++ output_queue (feed [u "Dear all," ++ [10]; u "thanks."; u " ERR"] idle).
Proof.
  split; [reflexivity|].
  exact (feed_loses_only_trailing_newlines
           [u "Dear all," ++ [10]; u "thanks."; u " ERR"] idle eq_refl).
Defined.

(** X8: on a desktop where no external call raises, what is withheld from
    the document never has, once stripped, more characters than the
    sentinel. *)
Theorem feed_withholds_at_most_sentinel_length (chunks : list str) (st : State) :
  quiet st ->
  (length (strip (output_queue st)) <= length error_message)%nat ->
  (length (strip (output_queue (feed chunks st))) <= length error_message)%nat.
Proof.
  revert st; induction chunks as [|c chunks IH]; intros st Hq Hb; [exact Hb|].
  rewrite feed_cons.
  destruct (replace_text_quiet_step st c Hq) as [Hq1 Hstep].
  apply IH; [exact Hq1|].
  destruct Hstep as [(_ & Ho1 & [-> | Hd]) | (_ & Ho1)]; rewrite Ho1.
  - now rewrite app_nil_r.
  - now apply decision_not_forward_short.
  - change (strip []) with (@nil char). cbn [length]. lia.
Qed.

Lemma feed_withholds_at_most_sentinel_length_witness :
  quiet idle /\
  (length (strip (output_queue idle)) <= length error_message)%nat /\
  (length (strip (output_queue (feed [u "ERROR_TEXT_"; u "INCOMPATIBLE"] idle)))
   <= length error_message)%nat.
Proof.
  assert (Hb : (length (strip (output_queue idle)) <= length error_message)%nat)
    by (apply Nat.leb_le; vm_compute; reflexivity).
  split; [reflexivity|]. split; [exact Hb|].
  exact (feed_withholds_at_most_sentinel_length
           [u "ERROR_TEXT_"; u "INCOMPATIBLE"] idle eq_refl Hb).
Defined.

(** ** Failures *)

(** X9: when an external call of a paste raises, [k] calls having
    succeeded before it (in order: reading the clipboard, writing it,
    creating the keyboard controller, the four key events, restoring the
    clipboard), [replace_text] logs the error and keeps the accumulated
    output; the clipboard keeps the text to paste once it has been
    written, and when five calls or more have succeeded the text has
    already been pasted although it stays in the queue. *)
Theorem failed_paste_keeps_queue
    (st : State) (chunk : str) (k : nat) (e : str) (rest : list (option str)) :
  chunk <> [] ->
  decision (output_queue st ++ chunk) = Forward_All ->
  faults st = repeat None k ++ Some e :: rest ->
  (k < 8)%nat ->
  let cleaned_text := rstrip [10] (output_queue st ++ chunk) in
  let st' := exec (replace_text (PyStr chunk)) st in
  output_queue st' = output_queue st ++ chunk /\
  trace st' = trace st
              ++ (if (k <? 2)%nat then []
                  else if (k <? 5)%nat then [EvClipSet cleaned_text]
                  else [EvClipSet cleaned_text; EvPasted cleaned_text])
              ++ [EvLogError (u "Error replacing text: " ++ e)] /\
  clipboard st' = (if (k <? 2)%nat then clipboard st else cleaned_text).
Proof.
  intros Hc Hd Hf Hk. cbv zeta. unfold exec.
  rewrite (replace_text_decision st chunk Hc). cbv zeta. rewrite Hd.
  destruct st as [q cp pw n clip sel ctrl fs tr]. cbn [faults] in Hf. subst fs.
  do 8 (destruct k as [|k];
        [ cbn [repeat app Nat.ltb Nat.leb]; run_calls; rewrite <- ?app_assoc;
          repeat split; reflexivity | ]).
  lia.
Qed.

Lemma failed_paste_keeps_queue_witness :
  u "Hello" <> [] /\
  decision (output_queue no_keyboard ++ u "Hello") = Forward_All /\
  faults no_keyboard = repeat None 2 ++ Some (u "no display") :: [] /\
  (2 < 8)%nat /\
  output_queue (exec (replace_text (PyStr (u "Hello"))) no_keyboard)
  = output_queue no_keyboard ++ u "Hello".
Proof.
  assert (Hc : u "Hello" <> []) by discriminate.
  assert (Hd : decision (output_queue no_keyboard ++ u "Hello") = Forward_All)
    by (vm_compute; reflexivity).
  assert (Hk : (2 < 8)%nat) by lia.
  split; [exact Hc|]. split; [exact Hd|]. split; [reflexivity|].
  split; [exact Hk|].
  exact (proj1 (failed_paste_keeps_queue
                  no_keyboard (u "Hello") 2 (u "no display") [] Hc Hd eq_refl Hk)).
Defined.



(** ** Requests *)

Ltac run_request :=
  cbv [exec fst snd try_except bind external gets modify record ret raise
       get_response logging_error show_message_signal_emit
       output_queue current_provider popup_window show_popup_queued clipboard
       selection ctrl_down faults trace
       set_output_queue set_faults set_trace].

(** X11: every call of [process_option_thread] either starts exactly one
    backend request, the accumulated output being empty, or starts none
    and then tells the user so with exactly one message. *)
Theorem request_started_or_user_told
    (st : State) (opt selected_text : str) (custom_change : option str) :
  let st' := exec (process_option_thread opt selected_text custom_change) st in
  (requests (trace st') = requests (trace st) /\
   length (messages (trace st')) = S (length (messages (trace st)))) \/
  (requests (trace st') = S (requests (trace st)) /\ output_queue st' = []).
Proof.
  cbv zeta. unfold process_option_thread.
  destruct st as [q cp pw n clip sel ctrl fs tr].
  destruct (str_eqb (strip selected_text) []);
    destruct (str_eqb opt (u "Custom"));
    destruct (dict_get option_prompts opt ([], [])) as [prompt_prefix system_instruction];
    destruct cp as [pr|]; destruct fs as [|[e|] fs];
    run_request;
    rewrite ?requests_app, ?messages_app, ?length_app;
    cbn [requests messages length];
    solve [ left; split; lia | right; split; [lia | reflexivity] ].
Qed.

(** X12: unless the option is ['Custom'], [custom_change] plays no part in
    what [process_option_thread] does. *)
Theorem custom_change_only_for_custom
    (st : State) (opt selected_text : str) (c1 c2 : option str) :
  opt <> u "Custom" ->
  process_option_thread opt selected_text c1 st
  = process_option_thread opt selected_text c2 st.
Proof.
  intros Ho. unfold process_option_thread.
  now rewrite (str_eqb_neq _ _ Ho).
Qed.

Lemma custom_change_only_for_custom_witness :
  u "Personnalisé" <> u "Custom" /\
  process_option_thread (u "Personnalisé") (u "bonjour") (Some (u "en majuscules")) idle
  = process_option_thread (u "Personnalisé") (u "bonjour") None idle.
Proof.
  assert (Ho : u "Personnalisé" <> u "Custom") by (vm_compute; discriminate).
  split; [exact Ho|].
  exact (custom_change_only_for_custom
           idle (u "Personnalisé") (u "bonjour") (Some (u "en majuscules")) None Ho).
Defined.

Lemma dict_get_missing {V : Type} (d : list (str * V)) (k : str) (default : V) :
  ~ In k (map fst d) -> dict_get d k default = default.
Proof.
  induction d as [|[k' v] d IH]; intros H; [reflexivity|]. cbn [dict_get].
  rewrite str_eqb_neq.
  - apply IH. intros Hin. apply H. now right.
  - intros ->. apply H. now left.
Qed.

(** X13: for an option the prompt table does not know, and ['Custom'] is
    one, a request on a selected text is sent with an empty system
    instruction and no prompt prefix: the selected text alone, or for
    ['Custom'] the described change and the text. *)
Theorem unknown_option_sends_bare_prompt
    (st : State) (pr : Provider) (opt selected_text : str)
    (custom_change : option str) :
  ~ In opt (map fst option_prompts) ->
  strip selected_text <> [] ->
  current_provider st = Some pr ->
  quiet st ->
  let st' := exec (process_option_thread opt selected_text custom_change) st in
  trace st' =
    trace st ++
    [EvGetResponse pr []
       (Some (if str_eqb opt (u "Custom")
              then u "Described change: " ++ fmt custom_change
                   ++ [10; 10] ++ u "Text: " ++ selected_text
              else selected_text))] /\
  output_queue st' = [].
Proof.
  intros Hk Hs Hp Hq. cbv zeta. unfold process_option_thread.
  rewrite (str_eqb_neq _ _ Hs), (dict_get_missing _ _ _ Hk).
  destruct st as [q cp pw n clip sel ctrl fs tr]. cbn in Hp. subst cp.
  unfold quiet in Hq. cbn [faults] in Hq.
  destruct (str_eqb opt (u "Custom"));
    destruct fs as [|[e|] fs]; try discriminate Hq;
    run_request; split; reflexivity.
Qed.

Lemma unknown_option_sends_bare_prompt_witness :
  ~ In (u "Custom") (map fst option_prompts) /\
  strip (u "bonjour") <> [] /\
  current_provider idle = Some Gemini15FlashProvider /\
  quiet idle /\
  output_queue (exec (process_option_thread (u "Custom") (u "bonjour") None) idle) = [].
Proof.
  assert (Hk : ~ In (u "Custom") (map fst option_prompts)).
  { vm_compute. intros H.
    repeat (destruct H as [H|H]; [discriminate H|]). exact H. }
  assert (Hs : strip (u "bonjour") <> []) by (vm_compute; discriminate).
  split; [exact Hk|]. split; [exact Hs|]. split; [reflexivity|].
  split; [reflexivity|].
  exact (proj2 (unknown_option_sends_bare_prompt
                  idle Gemini15FlashProvider (u "Custom") (u "bonjour") None
                  Hk Hs eq_refl eq_refl)).
Defined.

(** X14: when the provider's [get_response] raises, on a selected text,
    the request has been made from an empty accumulated output, the error
    is logged and the user is shown its message. *)
Theorem failed_request_is_reported
    (st : State) (pr : Provider) (opt selected_text : str)
    (custom_change : option str) (e : str) (rest : list (option str)) :
  strip selected_text <> [] ->
  current_provider st = Some pr ->
  faults st = Some e :: rest ->
  let st' := exec (process_option_thread opt selected_text custom_change) st in
  exists system_instruction prompt,
    trace st' =
      trace st ++
      [EvGetResponse pr system_instruction prompt;
       EvLogError (u "An error occurred: " ++ e);
       EvMessage (u "Error") (u "An error occurred: " ++ e)] /\
    output_queue st' = [].
Proof.
  intros Hs Hp Hf. cbv zeta. unfold process_option_thread.
  rewrite (str_eqb_neq _ _ Hs).
  destruct st as [q cp pw n clip sel ctrl fs tr]. cbn in Hp, Hf. subst cp fs.
  destruct (dict_get option_prompts opt ([], [])) as [prompt_prefix system_instruction].
  destruct (str_eqb opt (u "Custom"));
    run_request; rewrite <- ?app_assoc; do 2 eexists; split; reflexivity.
Qed.

Lemma failed_request_is_reported_witness :
  strip (u "bonjour") <> [] /\
  current_provider backend_down = Some Gemini15FlashProvider /\
  faults backend_down = Some (u "timeout") :: [] /\
  output_queue (exec (process_option_thread (u "Relecture") (u "bonjour") None)
                     backend_down) = [].
Proof.
  assert (Hs : strip (u "bonjour") <> []) by (vm_compute; discriminate).
  split; [exact Hs|]. split; [reflexivity|].
  split; [reflexivity|].
  destruct (failed_request_is_reported
              backend_down Gemini15FlashProvider
              (u "Relecture") (u "bonjour") None (u "timeout") []
              Hs eq_refl eq_refl) as (sys & prompt & _ & H).
  exact H.
Defined.

(** ** Capturing the selection *)

Ltac run_capture :=
  cbv [exec fst snd get_selected_text clear_clipboard
       try_except bind pyperclip_paste pyperclip_copy external gets modify record
       Controller press_ctrl_c press release ret logging_error
       output_queue current_provider popup_window show_popup_queued clipboard
       selection ctrl_down faults trace
       set_output_queue set_popup_window set_show_popup_queued set_clipboard
       set_ctrl_down set_faults set_trace
       andb N.eqb Pos.eqb forallb no_fault].

Ltac quiet_capture fs H :=
  first
    [ run_capture; rewrite <- ?app_assoc; repeat split; reflexivity
    | destruct fs as [|[?|] fs];
      [ | exfalso; revert H; run_capture; discriminate
        | revert H; run_capture; intros H ];
      quiet_capture fs H ].

(** X15: when no external call raises, the capture returns the selection
    of the foreground application, the empty string when nothing is
    selected, whatever the clipboard held. *)
Theorem capture_returns_selection (st : State) :
  quiet st -> fst (get_selected_text st) = Done (selection st).
Proof. intros Hq. now rewrite (get_selected_text_quiet st Hq). Qed.

Lemma capture_returns_selection_witness :
  quiet idle /\ fst (get_selected_text idle) = Done (u "selected words").
Proof.
  split; [reflexivity|].
  exact (capture_returns_selection idle eq_refl).
Defined.

(** X16: when clearing the clipboard raises, which [clear_clipboard]
    swallows, and nothing is selected, the capture returns what the
    clipboard held before as if it were the selection. *)
Theorem capture_returns_stale_clipboard
    (st : State) (e : str) (rest : list (option str)) :
  faults st = None :: Some e :: rest ->
  forallb no_fault rest = true ->
  selection st = [] ->
  fst (get_selected_text st) = Done (clipboard st) /\
  trace (exec get_selected_text st)
  = trace st ++ [EvLogError (u "Error clearing clipboard: " ++ e);
                 EvCopied []; EvClipSet (clipboard st)].
Proof.
  intros Hf Hq Hs.
  destruct st as [q cp pw n clip sel ctrl fs tr]. cbn in Hf, Hs. subst fs sel.
  quiet_capture rest Hq.
Qed.

Lemma capture_returns_stale_clipboard_witness :
  let st := mkState [] None None 0 (u "old secret") [] false
                    [None; Some (u "clipboard busy")] [] in
  faults st = None :: Some (u "clipboard busy") :: [] /\
  forallb no_fault [] = true /\
  selection st = [] /\
  fst (get_selected_text st) = Done (u "old secret").
Proof.
  cbv zeta. split; [reflexivity|]. split; [reflexivity|]. split; [reflexivity|].
  exact (proj1 (capture_returns_stale_clipboard
                  (mkState [] None None 0 (u "old secret") [] false
                           [None; Some (u "clipboard busy")] [])
                  (u "clipboard busy") [] eq_refl eq_refl eq_refl)).
Defined.

(** ** The hotkey listener *)

Ltac listen_run :=
  cbv [start_hotkey_listener register_hotkey exit_app ltry lbind lret lexternal
       listener_stop hotkey_parse set_registered_hotkey listener_create
       listener_start listener_log snd fst
       hotkey_listener registered_hotkey running created parsed has_quit
       listener_faults listener_errors one_listener forallb no_fault andb].

Lemma stop_held_listener (s : Listening) (id : nat) :
  one_listener s -> hotkey_listener s = Some id ->
  filter (fun r => negb (Nat.eqb r id)) (running s) = [].
Proof.
  intros [Hr | [id' [Hr Hh]]] Hid; rewrite Hr; [reflexivity|].
  rewrite Hh in Hid. injection Hid as ->. cbn. now rewrite Nat.eqb_refl.
Qed.

Lemma none_held_none_running (s : Listening) :
  one_listener s -> hotkey_listener s = None -> running s = [].
Proof. intros [Hr | [id' [Hr Hh]]] Hid; [assumption | congruence]. Qed.

Ltac listen_done Hf H :=
  listen_run; rewrite ?Hf;
  first [ left; reflexivity
        | right; eexists; split; reflexivity
        | exact H ].

Ltac listen_explore fs Hf H :=
  first [ listen_done Hf H
        | destruct fs as [|[?|] fs]; listen_explore fs Hf H ].

Lemma listener_call_keeps_one (call : ListenerCall) (s : Listening) :
  one_listener s -> one_listener (listener_calls [call] s).
Proof.
  intros H.
  destruct s as [held reg run made prs quit fs errs].
  destruct held as [id|].
  - pose proof (stop_held_listener _ id H eq_refl) as Hf. cbn [running] in Hf.
    unfold one_listener in H. cbn [running hotkey_listener] in H.
    destruct call as [config_shortcut|]; cbn [listener_calls];
      listen_explore fs Hf H.
  - pose proof (none_held_none_running _ H eq_refl) as Hf. cbn [running] in Hf.
    subst run.
    unfold one_listener in H. cbn [running hotkey_listener] in H.
    destruct call as [config_shortcut|]; cbn [listener_calls];
      listen_explore fs H H.
Qed.

(** X17: however often the hotkey is registered again and whichever call
    into pynput raises, from the start of the application at most one
    listener is running, and it is the one [self.hotkey_listener] holds. *)
Theorem at_most_one_listener_runs
    (calls : list ListenerCall) (fs : list (option str)) :
  let s := listener_calls calls
             (mkListening None None [] 0 [] false fs []) in
  one_listener s /\ (length (running s) <= 1)%nat.
Proof.
  cbv zeta.
  assert (H0 : one_listener (mkListening None None [] 0 [] false fs []))
    by (left; reflexivity).
  revert H0. generalize (mkListening None None [] 0 [] false fs []).
  induction calls as [|call calls IH]; intros s H.
  - cbn [listener_calls]. split; [exact H|].
    destruct H as [Hr | [id [Hr _]]]; rewrite Hr; cbn; lia.
  - apply (listener_call_keeps_one call) in H.
    destruct call; apply IH; exact H.
Qed.

(** X18: when pynput cannot parse the shortcut, the listener that was
    running has been stopped and none is started: no hotkey is listened
    to, [registered_hotkey] still holds the previous shortcut, and the
    error is only logged. *)
Theorem unparsable_shortcut_stops_listening
    (s : Listening) (config_shortcut : option str) (e : str)
    (rest : list (option str)) :
  one_listener s ->
  listener_faults s
  = repeat None (match hotkey_listener s with Some _ => 1 | None => 0 end)
    ++ Some e :: rest ->
  let s' := snd (start_hotkey_listener config_shortcut s) in
  running s' = [] /\
  registered_hotkey s' = registered_hotkey s /\
  hotkey_listener s' = hotkey_listener s /\
  listener_errors s' = listener_errors s ++ [u "Failed to register hotkey: " ++ e] /\
  fst (start_hotkey_listener config_shortcut s) = Done tt.
Proof.
  intros H Hf. cbv zeta.
  destruct s as [held reg run made prs quit fs errs].
  cbn [listener_faults hotkey_listener] in Hf.
  destruct held as [id|].
  - pose proof (stop_held_listener _ id H eq_refl) as Hs. cbn [running] in Hs.
    cbn [repeat app] in Hf. subst fs.
    listen_run. rewrite Hs. repeat split; reflexivity.
  - pose proof (none_held_none_running _ H eq_refl) as Hs. cbn [running] in Hs.
    cbn [repeat app] in Hf. subst fs run.
    listen_run. repeat split; reflexivity.
Qed.

Lemma unparsable_shortcut_stops_listening_witness :
  let s := mkListening (Some 0%nat) (Some (u "ctrl+space")) [0%nat] 1 [] false
                       [None; Some (u "invalid key")] [] in
  one_listener s /\
  listener_faults s = repeat None 1 ++ Some (u "invalid key") :: [] /\
  running (snd (start_hotkey_listener (Some (u "ctrl+spcae")) s)) = [] /\
  registered_hotkey (snd (start_hotkey_listener (Some (u "ctrl+spcae")) s))
  = Some (u "ctrl+space").
Proof.
  cbv zeta.
  assert (H : one_listener
                (mkListening (Some 0%nat) (Some (u "ctrl+space")) [0%nat] 1 [] false
                             [None; Some (u "invalid key")] [])).
  { right. exists 0%nat. split; reflexivity. }
  split; [exact H|]. split; [reflexivity|].
  destruct (unparsable_shortcut_stops_listening _ (Some (u "ctrl+spcae"))
              (u "invalid key") [] H eq_refl) as (Hr & Hreg & _).
  split; [exact Hr | exact Hreg].
Defined.

Ltac listen_quiet fs Hs H :=
  first
    [ listen_run; rewrite ?Hs; repeat split; reflexivity
    | destruct fs as [|[?|] fs];
      [ | exfalso; revert H; listen_run; discriminate
        | revert H; listen_run; intros H ];
      listen_quiet fs Hs H ].

(** X19: when no call raises, [start_hotkey_listener] leaves exactly the
    new listener running, held by [self], records the configured shortcut
    (['ctrl+space'] when the configuration has none) and has given pynput
    that shortcut in its bracketed form. *)
Theorem start_hotkey_listener_replaces_listener
    (s : Listening) (config_shortcut : option str) :
  one_listener s ->
  listener_quiet s ->
  let orig_shortcut :=
    match config_shortcut with Some v => v | None => u "ctrl+space" end in
  let s' := snd (start_hotkey_listener config_shortcut s) in
  running s' = [created s] /\
  hotkey_listener s' = Some (created s) /\
  registered_hotkey s' = Some orig_shortcut /\
  parsed s' = parsed s ++ [shortcut orig_shortcut] /\
  listener_errors s' = listener_errors s.
Proof.
  intros H Hq. cbv zeta.
  destruct s as [held reg run made prs quit fs errs].
  unfold listener_quiet in Hq. cbn [listener_faults] in Hq.
  destruct held as [id|].
  - pose proof (stop_held_listener _ id H eq_refl) as Hs. cbn [running] in Hs.
    listen_quiet fs Hs Hq.
  - pose proof (none_held_none_running _ H eq_refl) as Hs. cbn [running] in Hs.
    subst run. pose proof (eq_refl (@nil nat)) as Hn.
    listen_quiet fs Hn Hq.
Qed.

Lemma start_hotkey_listener_replaces_listener_witness :
  one_listener not_listening /\
  listener_quiet not_listening /\
  running (snd (start_hotkey_listener None not_listening)) = [0%nat] /\
  parsed (snd (start_hotkey_listener None not_listening)) = [u "<ctrl>+<space>"].
Proof.
  assert (H : one_listener not_listening) by (left; reflexivity).
  split; [exact H|]. split; [reflexivity|].
  destruct (start_hotkey_listener_replaces_listener not_listening None H eq_refl)
    as (Hr & _ & _ & Hp & _).
  split; [exact Hr|]. rewrite Hp. vm_compute. reflexivity.
Defined.

(** X20: when no call raises, [exit_app] has stopped the listener before
    quitting: none is running any more. *)
Theorem exit_app_stops_listener (s : Listening) :
  one_listener s ->
  listener_quiet s ->
  running (snd (exit_app s)) = [] /\ has_quit (snd (exit_app s)) = true.
Proof.
  intros H Hq.
  destruct s as [held reg run made prs quit fs errs].
  unfold listener_quiet in Hq. cbn [listener_faults] in Hq.
  destruct held as [id|].
  - pose proof (stop_held_listener _ id H eq_refl) as Hs. cbn [running] in Hs.
    listen_quiet fs Hs Hq.
  - pose proof (none_held_none_running _ H eq_refl) as Hs. cbn [running] in Hs.
    subst run. pose proof (eq_refl (@nil nat)) as Hn.
    listen_quiet fs Hn Hq.
Qed.

Lemma exit_app_stops_listener_witness :
  one_listener (snd (start_hotkey_listener None not_listening)) /\
  listener_quiet (snd (start_hotkey_listener None not_listening)) /\
  running (snd (exit_app (snd (start_hotkey_listener None not_listening)))) = [].
Proof.
  assert (H : one_listener (snd (start_hotkey_listener None not_listening))).
  { right. exists 0%nat. split; reflexivity. }
  split; [exact H|]. split; [reflexivity|].
  exact (proj1 (exit_app_stops_listener _ H eq_refl)).
Defined.
